(** * Binary format probing toolkit: the two .ptx analysis scripts

    A shallow embedding of [analyze_ptx.py] (marker search) and
    [ptx_structure_analyzer.py] (string table scan, 4-byte field guessing,
    two-file comparison), and the properties of their scanning loops.

    Conventions of the embedding:
    - a [bytes] object is a [list byte]; a [str] is the list of its code
      points;
    - offsets and lengths are [nat]; every subtraction the scripts perform on
      offsets is either guarded by [max(0, _)] or is the bound of a [range],
      so truncated subtraction gives the value Python uses; the one signed
      quantity, the size difference of two files, is a [Z];
    - [print] is modelled by the list of lines printed, each line a
      constructor carrying the values formatted into it; a function named
      after the source function gives the lines printed on a stdout that
      writes every line, and its companion [_on] takes the stdout as an
      argument: there a [print] can raise, inside or outside a [try];
    - an exception is a value of [exn]; [try ... except Exception] is
      [catch], and [IO.try_except] where lines are printed. *)

From Stdlib Require Import String.
From Stdlib Require Import List Arith NArith ZArith Lia Bool Sorted.
From Stdlib.Strings Require Import Byte.
From Stdlib Require Import PrimFloat Uint63.
Import ListNotations.

Set Implicit Arguments.

Local Open Scope nat_scope.

(** ** Python values and primitives *)

Definition bytes := list byte.

(** A [str]: its code points. Python keeps them below [0x110000]; lone
    surrogates ([0xD800]..[0xDFFF]) may occur in a [str]. *)
Definition str := list N.

Module Py.

(** [l[start:stop]] for [0 <= start] and [0 <= stop]: clamped to the
    length of [l], empty when [stop <= start]. *)
Definition slice {A} (l : list A) (start stop : nat) : list A :=
  firstn (stop - start) (skipn start l).

(** [enumerate(l)] *)
Definition enumerate {A} (l : list A) : list (nat * A) :=
  combine (seq 0 (length l)) l.

(** [range(0, stop, step)] for [step > 0]: [0, step, 2*step, ...] below
    [stop]. *)
Definition range_step (stop step : nat) : list nat :=
  map (fun k => k * step) (seq 0 ((stop + (step - 1)) / step)).

Definition byte_eqb (a b : byte) : bool := Byte.eqb a b.

(** [l.startswith(sub)] on the remaining suffix [l] *)
Fixpoint starts_with (sub l : bytes) : bool :=
  match sub, l with
  | [], _ => true
  | _ :: _, [] => false
  | a :: sub', b :: l' => byte_eqb a b && starts_with sub' l'
  end.

(** The scan of [bytes.find]: [l] is the suffix of the buffer that begins
    at index [i]; the lowest index at which [sub] begins, if any. *)
Fixpoint find_from (sub l : bytes) (i : nat) : option nat :=
  if starts_with sub l then Some i
  else match l with
       | [] => None
       | _ :: l' => find_from sub l' (S i)
       end.

(** [data.find(sub, start)]: the lowest index [>= start] at which [sub]
    occurs in [data], [None] for Python's [-1]. With [start > len(data)]
    the answer is [-1] even for the empty [sub]. *)
Definition find (data sub : bytes) (start : nat) : option nat :=
  if start <=? length data then find_from sub (skipn start data) start
  else None.

(** The byte whose value is [n mod 256]. *)
Definition byte_of_N (n : N) : byte :=
  match Byte.of_N (n mod 256) with
  | Some b => b
  | None => x00
  end.

End Py.

(** ** Exceptions and results *)

Inductive exn : Type :=
| OSError (msg : string)
    (** [open] or [read] failed *)
| UnicodeEncodeError (codec : string) (position : nat)
    (** [str.encode]: the code point at [position] cannot be encoded *)
| StructError
    (** [struct.unpack]: the buffer has not the size of the format *)
| UnicodeDecodeError (codec : string) (position : nat).

(** What running a piece of the script gives: a value, an exception on its
    way up, or a loop that used up its iteration budget. *)
Inductive result (A : Type) : Type :=
| Ok (a : A)
| Raise (e : exn)
| OutOfFuel.

Arguments Ok {A} a.
Arguments Raise {A} e.
Arguments OutOfFuel {A}.

Definition bind {A B} (m : result A) (k : A -> result B) : result B :=
  match m with
  | Ok a => k a
  | Raise e => Raise e
  | OutOfFuel => OutOfFuel
  end.

Notation "x <- m ;; k" := (bind m (fun x => k))
  (at level 61, m at next level, right associativity).

(** [try: m except Exception as e: h e] *)
Definition catch {A} (m : result A) (h : exn -> result A) : result A :=
  match m with
  | Raise e => h e
  | _ => m
  end.

(** The outcome of [open(path, 'rb')] followed by [read()]. *)
Inductive read_result : Type :=
| Loaded (data : bytes)
| IOFailure (msg : string).

Definition read_file (file : read_result) : result bytes :=
  match file with
  | Loaded data => Ok data
  | IOFailure msg => Raise (OSError msg)
  end.

(** ** Printing *)

(** What [print] does with a line: [None], the line is written; [Some e],
    [print] raises [e] (stdout cannot encode the text, stdout is
    closed). *)
Definition stdout (line : Type) : Type := line -> option exn.

(** A stdout that writes every line. *)
Definition reliable {line : Type} : stdout line := fun _ => None.

(** A piece of a script that prints: the lines written, in order, and how
    it ended. Lines written before an exception stay written. *)
Definition io (line A : Type) : Type := (list line * result A)%type.

Module IO.

Definition ret {line A : Type} (a : A) : io line A := ([], Ok a).

(** A computation that prints nothing. *)
Definition lift {line A : Type} (r : result A) : io line A := ([], r).

Definition bind {line A B : Type} (m : io line A) (k : A -> io line B)
  : io line B :=
  match snd m with
  | Ok a => (fst m ++ fst (k a), snd (k a))
  | Raise e => (fst m, Raise e)
  | OutOfFuel => (fst m, OutOfFuel)
  end.

(** [print(l)] *)
Definition print {line : Type} (s : stdout line) (l : line) : io line unit :=
  match s l with
  | None => ([l], Ok tt)
  | Some e => ([], Raise e)
  end.

(** [try: m except Exception as e: h e], and the bare [except:] *)
Definition try_except {line A : Type} (m : io line A) (h : exn -> io line A)
  : io line A :=
  match snd m with
  | Raise e => (fst m ++ fst (h e), snd (h e))
  | _ => m
  end.

(** [for a in l: f a] *)
Fixpoint for_each {line A : Type} (f : A -> io line unit) (l : list A)
  : io line unit :=
  match l with
  | [] => ret tt
  | a :: l' => bind (f a) (fun _ => for_each f l')
  end.

(** One [print] per line, in order. *)
Definition print_all {line : Type} (s : stdout line) (ls : list line)
  : io line unit :=
  for_each (print s) ls.

(** The lines of a callee, as lines of its caller. *)
Definition map_lines {line line' A : Type} (f : line -> line') (m : io line A)
  : io line' A :=
  (map f (fst m), snd m).

End IO.

(** ** Text encodings *)

Module Codec.

Import Py.
Local Open Scope N_scope.

Definition is_surrogate (c : N) : bool := (0xD800 <=? c) && (c <=? 0xDFFF).

(** The UTF-8 bytes of one code point; [None] where the codec refuses it. *)
Definition utf8_char (c : N) : option bytes :=
  if c <? 0x80 then Some [byte_of_N c]
  else if c <? 0x800 then
    Some [byte_of_N (0xC0 + c / 64); byte_of_N (0x80 + c mod 64)]
  else if c <? 0x10000 then
    if is_surrogate c then None
    else Some [byte_of_N (0xE0 + c / 4096);
               byte_of_N (0x80 + (c / 64) mod 64);
               byte_of_N (0x80 + c mod 64)]
  else if c <? 0x110000 then
    Some [byte_of_N (0xF0 + c / 262144);
          byte_of_N (0x80 + (c / 4096) mod 64);
          byte_of_N (0x80 + (c / 64) mod 64);
          byte_of_N (0x80 + c mod 64)]
  else None.

(** One 16-bit code unit, low byte first. *)
Definition unit_le (u : N) : bytes := [byte_of_N (u mod 256); byte_of_N (u / 256)].

(** The UTF-16LE bytes of one code point. *)
Definition utf16le_char (c : N) : option bytes :=
  if c <? 0x10000 then
    if is_surrogate c then None else Some (unit_le c)
  else if c <? 0x110000 then
    let c' := c - 0x10000 in
    Some (unit_le (0xD800 + c' / 1024) ++ unit_le (0xDC00 + c' mod 1024))
  else None.

(** [s.encode(codec)]: the code points in order, [UnicodeEncodeError] at
    the first one the codec refuses. *)
Fixpoint encode_with (enc : N -> option bytes) (codec : string)
         (position : nat) (s : str) : result bytes :=
  match s with
  | [] => Ok []
  | c :: s' =>
      match enc c with
      | None => Raise (UnicodeEncodeError codec position)
      | Some bs =>
          rest <- encode_with enc codec (S position) s' ;;
          Ok (bs ++ rest)
      end
  end.

Definition encode_utf8 (s : str) : result bytes :=
  encode_with utf8_char "utf-8" 0%nat s.

Definition encode_utf16le (s : str) : result bytes :=
  encode_with utf16le_char "utf-16-le" 0%nat s.

End Codec.

(** ** analyze_ptx.py: [find_marker_strings] *)

Inductive encoding_name : Type := UTF8 | UTF16LE.

(** One entry of [results]: the dict with keys ['term'], ['encoding'],
    ['position'] and ['context']. *)
Record occurrence : Type := mkOccurrence {
  term : str;
  encoding : encoding_name;
  position : nat;
  context : bytes
}.

(** The line the [except] branch prints. *)
Inductive marker_line : Type :=
| ErrorReadingFile (e : exn).

Module MarkerSearch.

(** The body of one [while True] loop: [fuel] bounds the number of
    iterations, [offset] and [results] are the loop's variables. *)
Fixpoint search_loop (fuel : nat) (data pat : bytes) (t : str)
         (e : encoding_name) (offset : nat) (results : list occurrence)
  : result (list occurrence) :=
  match fuel with
  | O => OutOfFuel
  | S fuel' =>
      match Py.find data pat offset with
      | None => Ok results
      | Some pos =>
          let start := Nat.max 0 (pos - 50) in
          let end_ := Nat.min (length data) (pos + length pat + 50) in
          let context := Py.slice data start end_ in
          search_loop fuel' data pat t e (pos + 1)
            (results ++ [mkOccurrence t e pos context])
      end
  end.

(** Iterations granted to a loop over [data]: one per offset [0..len]
    and one for the failing [find] that leaves the loop. *)
Definition loop_budget (data : bytes) : nat := length data + 2.

(** The body of [for term in search_terms]. *)
Definition search_term (data : bytes) (results : list occurrence) (t : str)
  : result (list occurrence) :=
  term_bytes <- Codec.encode_utf8 t ;;
  term_utf16 <- Codec.encode_utf16le t ;;
  results <- search_loop (loop_budget data) data term_bytes t UTF8 0 results ;;
  search_loop (loop_budget data) data term_utf16 t UTF16LE 0 results.

Fixpoint search_terms_loop (data : bytes) (results : list occurrence)
         (search_terms : list str) : result (list occurrence) :=
  match search_terms with
  | [] => Ok results
  | t :: rest =>
      results <- search_term data results t ;;
      search_terms_loop data results rest
  end.

End MarkerSearch.

(** [find_marker_strings(file_path, search_terms)]: the lines printed and
    the list returned. [file] is what opening and reading [file_path]
    gives. *)
Definition find_marker_strings (file : read_result) (search_terms : list str)
  : result (list marker_line * list occurrence) :=
  catch
    (data <- read_file file ;;
     results <- MarkerSearch.search_terms_loop data [] search_terms ;;
     Ok ([], results))
    (fun e => Ok ([ErrorReadingFile e], [])).

(** [find_marker_strings(file_path, search_terms)] on the stdout [s]: the
    [try] body prints nothing; the [print] of the handler is not inside a
    [try]. *)
Definition find_marker_strings_on (s : stdout marker_line) (file : read_result)
           (search_terms : list str) : io marker_line (list occurrence) :=
  IO.try_except
    (IO.lift (data <- read_file file ;;
              MarkerSearch.search_terms_loop data [] search_terms))
    (fun e => IO.bind (IO.print s (ErrorReadingFile e)) (fun _ => IO.ret [])).

(** ** ptx_structure_analyzer.py: the string scan of [analyze_file_structure] *)

Module Utf8.

Local Open Scope N_scope.

Definition between (lo hi n : N) : bool := (lo <=? n) && (n <=? hi).

(** The range of a valid second byte after the lead byte [n0] of a three
    or four byte sequence (no overlong forms, no surrogates, nothing
    above [0x10FFFF]). *)
Definition second_ok (n0 n1 : N) : bool :=
  if n0 =? 0xE0 then between 0xA0 0xBF n1
  else if n0 =? 0xED then between 0x80 0x9F n1
  else if n0 =? 0xF0 then between 0x90 0xBF n1
  else if n0 =? 0xF4 then between 0x80 0x8F n1
  else between 0x80 0xBF n1.

Definition cont (b : byte) : bool := between 0x80 0xBF (Byte.to_N b).

Definition low6 (b : byte) : N := Byte.to_N b - 0x80.

(** [l.decode('utf-8')], strict: [position] is the index of the head of
    [l] in the whole input. *)
Fixpoint decode_from (position : nat) (l : bytes) : result str :=
  let bad := Raise (UnicodeDecodeError "utf-8" position) in
  match l with
  | [] => Ok []
  | b0 :: l1 =>
      let n0 := Byte.to_N b0 in
      if n0 <? 0x80 then
        rest <- decode_from (position + 1) l1 ;; Ok (n0 :: rest)
      else if between 0xC2 0xDF n0 then
        match l1 with
        | b1 :: l2 =>
            if cont b1 then
              rest <- decode_from (position + 2) l2 ;;
              Ok (((n0 - 0xC0) * 64 + low6 b1) :: rest)
            else bad
        | _ => bad
        end
      else if between 0xE0 0xEF n0 then
        match l1 with
        | b1 :: b2 :: l3 =>
            if second_ok n0 (Byte.to_N b1) && cont b2 then
              rest <- decode_from (position + 3) l3 ;;
              Ok (((n0 - 0xE0) * 4096 + low6 b1 * 64 + low6 b2) :: rest)
            else bad
        | _ => bad
        end
      else if between 0xF0 0xF4 n0 then
        match l1 with
        | b1 :: b2 :: b3 :: l4 =>
            if second_ok n0 (Byte.to_N b1) && cont b2 && cont b3 then
              rest <- decode_from (position + 4) l4 ;;
              Ok (((n0 - 0xF0) * 262144 + low6 b1 * 4096
                   + low6 b2 * 64 + low6 b3) :: rest)
            else bad
        | _ => bad
        end
      else bad
  end.

Definition decode (l : bytes) : result str := decode_from 0 l.

End Utf8.

Module StringScan.

(** [32 <= byte <= 126] *)
Definition printable (b : byte) : bool :=
  (32 <=? Byte.to_N b)%N && (Byte.to_N b <=? 126)%N.

(** [all(ord(c) < 128 for c in decoded)] *)
Definition ascii_like (decoded : str) : bool :=
  forallb (fun c => (c <? 128)%N) decoded.

(** The block both terminating branches run before they reset
    [current_string]: the [if len(current_string) > 2] with its
    [try]/[except: pass]. *)
Definition flush (i : nat) (current_string : bytes)
           (strings : list (nat * str)) : list (nat * str) :=
  if 2 <? length current_string then
    match Utf8.decode current_string with
    | Ok decoded =>
        if (2 <? length decoded) && ascii_like decoded
        then strings ++ [(i - length current_string, decoded)]
        else strings
    | _ => strings
    end
  else strings.

(** The loop's variables: [strings] and [current_string]. *)
Definition state : Type := list (nat * str) * bytes.

(** The body of [for i, byte in enumerate(data)]. *)
Definition step (st : state) (ib : nat * byte) : state :=
  let '(strings, current_string) := st in
  let '(i, b) := ib in
  if (Byte.to_N b =? 0)%N then (flush i current_string strings, [])
  else if printable b then (strings, current_string ++ [b])
  else (flush i current_string strings, []).

(** The loop, from [strings = []] and [current_string = b""]. *)
Definition scan (data : bytes) : state :=
  fold_left step (Py.enumerate data) ([], []).

(** The value of [strings] after the loop; nothing touches it later. *)
Definition strings (data : bytes) : list (nat * str) := fst (scan data).

End StringScan.

(** ** ptx_structure_analyzer.py: the 4-byte scan of [analyze_file_structure] *)

(** One entry of [potential_markers]: [(i, value, seconds)]. *)
Definition candidate : Type := (nat * N * float)%type.

Module FieldScan.

(** [struct.unpack('<I', w)[0]] *)
Definition unpack_le (w : bytes) : result N :=
  match w with
  | [b0; b1; b2; b3] =>
      Ok (Byte.to_N b0 + 256 * Byte.to_N b1 + 65536 * Byte.to_N b2
          + 16777216 * Byte.to_N b3)%N
  | _ => Raise StructError
  end.

(** [struct.unpack('>I', w)[0]] *)
Definition unpack_be (w : bytes) : result N :=
  match w with
  | [b0; b1; b2; b3] =>
      Ok (16777216 * Byte.to_N b0 + 65536 * Byte.to_N b1 + 256 * Byte.to_N b2
          + Byte.to_N b3)%N
  | _ => Raise StructError
  end.

(** The binary64 value of an [int] that a double holds exactly. *)
Definition float_of_N (n : N) : float :=
  PrimFloat.of_uint63 (Uint63.of_Z (Z.of_N n)).

(** [value / 44100]: true division of two small ints, the IEEE quotient
    of their doubles. *)
Definition seconds_of (value : N) : float :=
  PrimFloat.div (float_of_N value) (float_of_N 44100).

(** [10 < seconds < 300]: an [int] against a [float]. *)
Definition in_song (seconds : float) : bool :=
  PrimFloat.ltb (float_of_N 10) seconds && PrimFloat.ltb seconds (float_of_N 300).

(** The body of [for value in [value_le, value_be]]. *)
Definition consider (i : nat) (potential_markers : list candidate) (value : N)
  : list candidate :=
  if (0 <? value)%N && (value <? 10000000)%N then
    let seconds := seconds_of value in
    if in_song seconds then potential_markers ++ [(i, value, seconds)]
    else potential_markers
  else potential_markers.

(** The body of [for i in range(...)]: the [try] with its
    [except: continue]. *)
Definition window (data : bytes) (potential_markers : list candidate) (i : nat)
  : list candidate :=
  match
    (value_le <- unpack_le (Py.slice data i (i + 4)) ;;
     value_be <- unpack_be (Py.slice data i (i + 4)) ;;
     Ok (fold_left (consider i) [value_le; value_be] potential_markers))
  with
  | Ok potential_markers' => potential_markers'
  | _ => potential_markers
  end.

(** [range(0, len(data) - 4, 4)] *)
Definition offsets (data : bytes) : list nat :=
  Py.range_step (length data - 4) 4.

(** The value of [potential_markers] after the loop. *)
Definition potential_markers (data : bytes) : list candidate :=
  fold_left (window data) (offsets data) [].

End FieldScan.

(** ** ptx_structure_analyzer.py: [compare_files] *)

Inductive compare_line : Type :=
| Comparing
| File1Size (n : nat)
| File2Size (n : nat)
| SizeDifference (d : Z)
| FirstDifferenceAt (i : nat)
| File1Context (c : bytes)
| File2Context (c : bytes)
| ExtraDataInFile2 (n : nat)
| ExtraHex (b : bytes)
| ExtraAscii (s : str)
| ErrorComparingFiles (e : exn).

Module Diff.

(** [for i in range(min_len): if data1[i] != data2[i]: ... break]: the
    index at which the loop breaks; [l1] and [l2] are the two buffers from
    index [i] on. *)
Fixpoint first_difference (l1 l2 : bytes) (i : nat) : option nat :=
  match l1, l2 with
  | a :: l1', b :: l2' =>
      if Py.byte_eqb a b then first_difference l1' l2' (S i) else Some i
  | _, _ => None
  end.

(** What the loop prints. *)
Definition difference_lines (data1 data2 : bytes) : list compare_line :=
  let min_len := Nat.min (length data1) (length data2) in
  match first_difference data1 data2 0 with
  | Some i =>
      let start := Nat.max 0 (i - 20) in
      let end_ := Nat.min min_len (i + 20) in
      [FirstDifferenceAt i;
       File1Context (Py.slice data1 start end_);
       File2Context (Py.slice data2 start end_)]
  | None => []
  end.

(** [b.decode('ascii', errors='ignore')] *)
Definition decode_ascii_ignore (b : bytes) : str :=
  map Byte.to_N (filter (fun x => (Byte.to_N x <? 128)%N) b).

(** What the [if len(data2) > len(data1)] block prints. *)
Definition extra_lines (data1 data2 : bytes) : list compare_line :=
  if length data1 <? length data2 then
    let extra_data := skipn (length data1) data2 in
    [ExtraDataInFile2 (length extra_data);
     ExtraHex (firstn 50 extra_data);
     ExtraAscii (firstn 50 (decode_ascii_ignore extra_data))]
  else [].

(** The body of the [try], once both files are read. *)
Definition report (data1 data2 : bytes) : list compare_line :=
  [File1Size (length data1);
   File2Size (length data2);
   SizeDifference (Z.of_nat (length data2) - Z.of_nat (length data1))]
  ++ difference_lines data1 data2
  ++ extra_lines data1 data2.

(** The trailing region a list of printed lines reports: its full length
    and the bytes shown. *)
Fixpoint trailing_extra_bytes (out : list compare_line) : option (nat * bytes) :=
  match out with
  | ExtraDataInFile2 n :: ExtraHex b :: _ => Some (n, b)
  | _ :: out' => trailing_extra_bytes out'
  | [] => None
  end.

(** Whether a list of printed lines reports an error. *)
Definition reports_error (out : list compare_line) : bool :=
  existsb (fun l => match l with ErrorComparingFiles _ => true | _ => false end) out.

End Diff.

(** [compare_files(file1, file2)]: the lines printed. [file1] and [file2]
    are what opening and reading each path gives; the [with] statement
    takes [file1] first, so its failure is the one reported when both
    fail. *)
Definition compare_files (file1 file2 : read_result) : result (list compare_line) :=
  out <- Ok [Comparing] ;;
  catch
    (data1 <- read_file file1 ;;
     data2 <- read_file file2 ;;
     Ok (out ++ Diff.report data1 data2))
    (fun e => Ok (out ++ [ErrorComparingFiles e])).

(** ** ptx_structure_analyzer.py: what [analyze_file_structure] prints *)

Inductive structure_line : Type :=
| AnalyzingStructure
| FileSize (n : nat)
| HeaderAnalysis
| HeaderHex (header : bytes)
| HeaderAscii (text : str)
| LookingForPatterns
| FoundStrings (n : nat)
| StringLine (pos : nat) (s : str)
| MoreStrings (n : nat)
| LookingForMarkerData
| SearchingIntegers
| FoundSamplePositions (n : nat)
| SamplePosition (pos : nat) (value : N) (seconds : float)
| ErrorAnalyzingFile (e : exn).

Module Structure.

(** The lines of [for pos, string in strings[:20]] and of the
    [if len(strings) > 20] after it. *)
Definition string_lines (strings : list (nat * str)) : list structure_line :=
  map (fun ps => StringLine (fst ps) (snd ps)) (Py.slice strings 0 20)
  ++ (if 20 <? length strings then [MoreStrings (length strings - 20)] else []).

(** The lines of the [if potential_markers] block. *)
Definition marker_lines (potential_markers : list candidate) : list structure_line :=
  match potential_markers with
  | [] => []
  | _ =>
      FoundSamplePositions (length potential_markers)
      :: map (fun c => SamplePosition (fst (fst c)) (snd (fst c)) (snd c))
             (Py.slice potential_markers 0 10)
  end.

(** The body of the [try], once the file is read. *)
Definition body (data : bytes) : list structure_line :=
  let header := Py.slice data 0 100 in
  let strings := StringScan.strings data in
  let potential_markers := FieldScan.potential_markers data in
  [FileSize (length data);
   HeaderAnalysis;
   HeaderHex header;
   HeaderAscii (Diff.decode_ascii_ignore header);
   LookingForPatterns;
   FoundStrings (length strings)]
  ++ string_lines strings
  ++ [LookingForMarkerData; SearchingIntegers]
  ++ marker_lines potential_markers.

End Structure.

(** [analyze_file_structure(file_path)]: the lines printed. Nothing after
    the read can raise, so no line of the [try] is printed before an
    exception. *)
Definition analyze_file_structure (file : read_result) : result (list structure_line) :=
  out <- Ok [AnalyzingStructure] ;;
  catch
    (data <- read_file file ;;
     Ok (out ++ Structure.body data))
    (fun e => Ok (out ++ [ErrorAnalyzingFile e])).

(** ** The two functions of ptx_structure_analyzer.py on a given stdout *)

(** [compare_files(file1, file2)] on the stdout [s]: the banner is printed
    before the [try]; the lines of the report are printed inside it, the
    ASCII line inside a [try] of its own with [except: pass]; the [print] of
    the handler is not inside a [try]. *)
Definition compare_files_on (s : stdout compare_line) (file1 file2 : read_result)
  : io compare_line unit :=
  IO.bind (IO.print s Comparing) (fun _ =>
  IO.try_except
    (IO.bind (IO.lift (data1 <- read_file file1 ;;
                       data2 <- read_file file2 ;;
                       Ok (data1, data2))) (fun d =>
     let data1 := fst d in
     let data2 := snd d in
     IO.bind (IO.print_all s
                [File1Size (length data1);
                 File2Size (length data2);
                 SizeDifference (Z.of_nat (length data2) - Z.of_nat (length data1))])
             (fun _ =>
     IO.bind (IO.print_all s (Diff.difference_lines data1 data2)) (fun _ =>
     if length data1 <? length data2 then
       let extra_data := skipn (length data1) data2 in
       IO.bind (IO.print s (ExtraDataInFile2 (length extra_data))) (fun _ =>
       IO.bind (IO.print s (ExtraHex (firstn 50 extra_data))) (fun _ =>
       IO.try_except
         (IO.print s (ExtraAscii (firstn 50 (Diff.decode_ascii_ignore extra_data))))
         (fun _ => IO.ret tt)))
     else IO.ret tt))))
    (fun e => IO.print s (ErrorComparingFiles e))).

(** [analyze_file_structure(file_path)] on the stdout [s]: the banner is
    printed before the [try], the report inside it, and the [print] of the
    handler is not inside a [try]. *)
Definition analyze_file_structure_on (s : stdout structure_line)
           (file : read_result) : io structure_line unit :=
  IO.bind (IO.print s AnalyzingStructure) (fun _ =>
  IO.try_except
    (IO.bind (IO.lift (read_file file)) (fun data =>
     IO.print_all s (Structure.body data)))
    (fun e => IO.print s (ErrorAnalyzingFile e))).

(** ** analyze_ptx.py: [analyze_ptx_file] *)

Module Utf8Ignore.

Import Utf8.
Local Open Scope N_scope.

(** [l.decode('utf-8', errors='ignore')]: the bytes of an ill-formed
    sequence are dropped up to the byte that breaks it, and decoding goes on
    from that byte; a sequence cut short by the end of the input is
    dropped. *)
Fixpoint decode (l : bytes) : str :=
  match l with
  | [] => []
  | b0 :: l1 =>
      let n0 := Byte.to_N b0 in
      if n0 <? 0x80 then n0 :: decode l1
      else if between 0xC2 0xDF n0 then
        match l1 with
        | b1 :: l2 =>
            if cont b1 then ((n0 - 0xC0) * 64 + low6 b1) :: decode l2
            else decode l1
        | [] => []
        end
      else if between 0xE0 0xEF n0 then
        match l1 with
        | b1 :: l2 =>
            if second_ok n0 (Byte.to_N b1) then
              match l2 with
              | b2 :: l3 =>
                  if cont b2 then
                    ((n0 - 0xE0) * 4096 + low6 b1 * 64 + low6 b2) :: decode l3
                  else decode l2
              | [] => []
              end
            else decode l1
        | [] => []
        end
      else if between 0xF0 0xF4 n0 then
        match l1 with
        | b1 :: l2 =>
            if second_ok n0 (Byte.to_N b1) then
              match l2 with
              | b2 :: l3 =>
                  if cont b2 then
                    match l3 with
                    | b3 :: l4 =>
                        if cont b3 then
                          ((n0 - 0xF0) * 262144 + low6 b1 * 4096
                           + low6 b2 * 64 + low6 b3) :: decode l4
                        else decode l3
                    | [] => []
                    end
                  else decode l2
              | [] => []
              end
            else decode l1
        | [] => []
        end
      else decode l1
  end.

End Utf8Ignore.

(** The code points of a string literal of the script (ASCII only). *)
Definition str_of (s : string) : str :=
  map Ascii.N_of_ascii (list_ascii_of_string s).

Inductive ptx_line : Type :=
| Analyzing
| SearchPrinted (l : marker_line)
| FoundMarkerReferences (n : nat)
| MarkerLine (t : str) (e : encoding_name)
| PositionLine (pos : nat)
| ContextHex (c : bytes)
| ContextText (readable : str)
| ContextNotReadable
| NoMarkerNamesFound
| FileSizeBytes (size : nat).

Module PtxReport.

(** [marker_terms] *)
Definition marker_terms : list str :=
  map str_of ["Intro"; "Verse 1"; "Chorus"; "Outro"]%string.

(** The body of [for result in results]: three lines, then the [try]
    around the [decode] with [errors='ignore'], which raises nothing, and
    the [print] of the text, which can; the bare [except] prints the
    fallback line. *)
Definition result_lines (s : stdout ptx_line) (r : occurrence) : io ptx_line unit :=
  IO.bind (IO.print s (MarkerLine (term r) (encoding r))) (fun _ =>
  IO.bind (IO.print s (PositionLine (position r))) (fun _ =>
  IO.bind (IO.print s (ContextHex (context r))) (fun _ =>
  IO.try_except
    (IO.print s (ContextText (Utf8Ignore.decode (context r))))
    (fun _ => IO.print s ContextNotReadable)))).

(** The [if results: ... else: ...] block. *)
Definition results_lines (s : stdout ptx_line) (results : list occurrence)
  : io ptx_line unit :=
  match results with
  | [] => IO.print s NoMarkerNamesFound
  | _ =>
      IO.bind (IO.print s (FoundMarkerReferences (length results))) (fun _ =>
      IO.for_each (result_lines s) results)
  end.

(** The last [try], with its [except: pass]: [getsize] is [None] when
    [os.path.getsize] raises. *)
Definition size_block (s : stdout ptx_line) (getsize : option nat)
  : io ptx_line unit :=
  IO.try_except
    (match getsize with
     | Some size => IO.print s (FileSizeBytes size)
     | None => IO.lift (Raise (OSError ""))
     end)
    (fun _ => IO.ret tt).

(** What the last [try] prints when its [print] succeeds. *)
Definition size_lines (getsize : option nat) : list ptx_line :=
  match getsize with
  | Some size => [FileSizeBytes size]
  | None => []
  end.

End PtxReport.

(** [analyze_ptx_file(file_path)] on the stdout [s]: the lines printed,
    those of [find_marker_strings] among them. [file] is what reading
    [file_path] gives, [getsize] what [os.path.getsize(file_path)] gives. *)
Definition analyze_ptx_file_on (s : stdout ptx_line) (file : read_result)
           (getsize : option nat) : io ptx_line unit :=
  IO.bind (IO.print s Analyzing) (fun _ =>
  IO.bind (IO.map_lines SearchPrinted
             (find_marker_strings_on (fun l => s (SearchPrinted l)) file
                                     PtxReport.marker_terms)) (fun results =>
  IO.bind (PtxReport.results_lines s results) (fun _ =>
  PtxReport.size_block s getsize))).

(** [analyze_ptx_file(file_path)] on a stdout that writes every line: the
    lines printed. *)
Definition analyze_ptx_file (file : read_result) (getsize : option nat)
  : result (list ptx_line) :=
  let run := analyze_ptx_file_on reliable file getsize in
  _ <- snd run ;; Ok (fst run).

(** ** An exhaustive check of the 10-second boundary

    The filter of [FieldScan.consider] compares a binary64 quotient. To
    relate it to the integer [value] the quotient is computed for every
    [value] the first test lets through; the 2^24 values below are visited by
    halving, on machine integers. *)

Module Boundary.

Definition rate : float := Eval vm_compute in FieldScan.float_of_N 44100.
Definition ten : float := Eval vm_compute in FieldScan.float_of_N 10.
Definition three_hundred : float := Eval vm_compute in FieldScan.float_of_N 300.

(** For [x] below ten million, [10 < x / 44100 < 300] in binary64 says
    the same as [441000 < x]. *)
Definition agrees (x : int) : bool :=
  if (x <? 10000000)%uint63 then
    let s := PrimFloat.div (PrimFloat.of_uint63 x) rate in
    Bool.eqb (PrimFloat.ltb ten s && PrimFloat.ltb s three_hundred)
             (441000 <? x)%uint63
  else true.

Fixpoint two_pow (k : nat) : int :=
  match k with
  | O => 1%uint63
  | S k' => (2 * two_pow k')%uint63
  end.

(** [all_in_block k f lo]: [f] holds of [lo], [lo + 1], ...,
    [lo + 2^k - 1]. *)
Fixpoint all_in_block (k : nat) (f : int -> bool) : int -> bool :=
  match k with
  | O => f
  | S k' =>
      let g := all_in_block k' f in
      let w := two_pow k' in
      fun lo => g lo && g (lo + w)%uint63
  end.

End Boundary.

(** ** An exhaustive check of the 300-second bound *)

Module UpperBound.

(** For [x] below ten million, [x / 44100 < 300] holds in binary64. *)
Definition below (x : int) : bool :=
  if (x <? 10000000)%uint63 then
    PrimFloat.ltb (PrimFloat.div (PrimFloat.of_uint63 x) Boundary.rate)
                  Boundary.three_hundred
  else true.

End UpperBound.

(** ** Vocabulary of the statements *)

(** [sub] occurs verbatim in [data] at offset [k]. *)
Definition occurs_at (data sub : bytes) (k : nat) : Prop :=
  k + length sub <= length data /\ Py.slice data k (k + length sub) = sub.

(** The test [bytes.find] makes at offset [k]. *)
Definition match_at (data sub : bytes) (k : nat) : bool :=
  (k <=? length data) && Py.starts_with sub (skipn k data).

(** The entry [find_marker_strings] appends for a hit of [pat] at [pos]. *)
Definition occurrence_at (data pat : bytes) (t : str) (e : encoding_name)
           (pos : nat) : occurrence :=
  mkOccurrence t e pos
    (Py.slice data (Nat.max 0 (pos - 50))
              (Nat.min (length data) (pos + length pat + 50))).

(** Every offset of [data] from [from] on at which [pat] occurs, ascending:
    [0..len(data)] are the offsets a (possibly empty) pattern can occur
    at. *)
Definition hits (data pat : bytes) (from : nat) : list nat :=
  filter (match_at data pat) (seq from (S (length data) - from)).

(** The two tests of [FieldScan.consider]. *)
Definition plausible (value : N) : bool :=
  (0 <? value)%N && (value <? 10000000)%N
  && FieldScan.in_song (FieldScan.seconds_of value).

(** What one interpretation of the window at [i] adds. *)
Definition kept (i : nat) (value : N) : list candidate :=
  if plausible value then [(i, value, FieldScan.seconds_of value)] else [].

(** What the window at [i] adds: nothing unless it holds four bytes, else
    what its little-endian value adds, then what its big-endian value
    adds. *)
Definition window_adds (data : bytes) (i : nat) : list candidate :=
  match FieldScan.unpack_le (Py.slice data i (i + 4)),
        FieldScan.unpack_be (Py.slice data i (i + 4)) with
  | Ok value_le, Ok value_be => kept i value_le ++ kept i value_be
  | _, _ => []
  end.

(** The bytes [find_marker_strings] searches for an entry tagged [e]. *)
Definition encode_as (e : encoding_name) (t : str) : result bytes :=
  match e with
  | UTF8 => Codec.encode_utf8 t
  | UTF16LE => Codec.encode_utf16le t
  end.

(** What one term adds to [results]: its UTF-8 hits, then its UTF-16LE
    hits. *)
Definition term_hits (data : bytes) (t : str) (p w : bytes) : list occurrence :=
  map (occurrence_at data p t UTF8) (hits data p 0)
  ++ map (occurrence_at data w t UTF16LE) (hits data w 0).

(** [run] is a run of printable bytes of [data] that starts at offset
    [pos], has no printable byte before it and a byte that is not printable
    after it. *)
Definition terminated_run (data : bytes) (pos : nat) (run : bytes) : Prop :=
  exists pre t post,
    data = pre ++ run ++ t :: post
    /\ length pre = pos
    /\ forallb StringScan.printable run = true
    /\ StringScan.printable t = false
    /\ (forall pre' b, pre = pre' ++ [b] -> StringScan.printable b = false).

(** [run] is the longest suffix of [data] made of printable bytes. *)
Definition open_run (data run : bytes) : Prop :=
  exists pre,
    data = pre ++ run
    /\ forallb StringScan.printable run = true
    /\ (forall pre' b, pre = pre' ++ [b] -> StringScan.printable b = false).

(** An entry of [strings] moved [d] bytes to the right. *)
Definition shift_entry (d : nat) (e : nat * str) : nat * str :=
  (d + fst e, snd e).

(** The entry [a] ends before the entry [b] begins, with a byte between
    them. *)
Definition entry_before (a b : nat * str) : Prop :=
  fst a + length (snd a) < fst b.

(** The lines of [analyze_file_structure] that list one string, and those
    that list one sample position. *)
Definition is_string_line (l : structure_line) : bool :=
  match l with StringLine _ _ => true | _ => false end.

Definition is_sample_line (l : structure_line) : bool :=
  match l with SamplePosition _ _ _ => true | _ => false end.

(** What [analyze_ptx_file] prints for one entry, and for the list of
    entries, when every [print] succeeds. *)
Definition printed_result (r : occurrence) : list ptx_line :=
  [MarkerLine (term r) (encoding r);
   PositionLine (position r);
   ContextHex (context r);
   ContextText (Utf8Ignore.decode (context r))].

Definition printed_results (results : list occurrence) : list ptx_line :=
  match results with
  | [] => [NoMarkerNamesFound]
  | _ => FoundMarkerReferences (length results) :: flat_map printed_result results
  end.

(** ** Proof automation *)

(** Linear arithmetic over [N] with division and remainder by constants. *)
Ltac nlia := zify; Z.to_euclidean_division_equations; lia.

Ltac decide_tests :=
  repeat match goal with
         | |- context [(?a <? ?b)%N] =>
             first [rewrite (proj2 (N.ltb_lt a b)) by nlia
                   | rewrite (proj2 (N.ltb_ge a b)) by nlia]
         | |- context [(?a <=? ?b)%N] =>
             first [rewrite (proj2 (N.leb_le a b)) by nlia
                   | rewrite (proj2 (N.leb_gt a b)) by nlia]
         | |- context [(?a =? ?b)%N] =>
             first [rewrite (proj2 (N.eqb_eq a b)) by nlia
                   | rewrite (proj2 (N.eqb_neq a b)) by nlia]
         end.

Ltac split_eq :=
  match goal with
  | |- context [(?a =? ?b)%N] =>
      let E := fresh "E" in
      destruct (a =? b)%N eqn:E; [apply N.eqb_eq in E | apply N.eqb_neq in E]
  end.

(** * Properties *)

(** ** [bytes.find] *)

Section Find.

Import Py.

Lemma byte_eqb_eq (a b : byte) : byte_eqb a b = true <-> a = b.
Proof.
  unfold byte_eqb. split.
  - intro H. now apply Byte.byte_dec_bl.
  - intros ->. now apply Byte.byte_dec_lb.
Qed.

Lemma starts_with_prefix (sub l : bytes) :
  starts_with sub l = true <-> firstn (length sub) l = sub /\ length sub <= length l.
Proof.
  revert l. induction sub as [|a sub IH]; intros [|b l]; simpl.
  - split; auto with arith.
  - split; auto with arith.
  - split; [discriminate | intros [_ H]; lia].
  - rewrite andb_true_iff, byte_eqb_eq, IH. split.
    + intros [Hab [Hsub Hlen]]. split; [now rewrite Hab, Hsub | lia].
    + intros [Heq Hlen]. injection Heq as Hab Hsub.
      repeat split; [now symmetry | exact Hsub | lia].
Qed.

Lemma match_at_occurs (data sub : bytes) (k : nat) :
  match_at data sub k = true <-> occurs_at data sub k.
Proof.
  unfold match_at, occurs_at, slice.
  rewrite andb_true_iff, Nat.leb_le, starts_with_prefix, length_skipn.
  replace (k + length sub - k) with (length sub) by lia.
  split.
  - intros [H1 [H2 H3]]. split; [lia | exact H2].
  - intros [H1 H2]. repeat split; try lia. exact H2.
Qed.

Lemma skipn_S_tail (l : bytes) (j : nat) : skipn (S j) l = skipn j (tl l).
Proof. destruct l; simpl; [now rewrite skipn_nil | reflexivity]. Qed.

(** [find_from] returns the first offset of the suffix at which [sub]
    begins. *)
Lemma find_from_Some (sub l : bytes) (i p : nat) :
  find_from sub l i = Some p ->
  i <= p <= i + length l
  /\ starts_with sub (skipn (p - i) l) = true
  /\ forall j, j < p - i -> starts_with sub (skipn j l) = false.
Proof.
  revert i. induction l as [|b l IH]; intros i; simpl.
  - destruct (starts_with sub []) eqn:E; [|discriminate].
    intros [= <-]. rewrite Nat.sub_diag. simpl. repeat split; try lia. exact E.
  - destruct (starts_with sub (b :: l)) eqn:E.
    + intros [= <-]. rewrite Nat.sub_diag. simpl. repeat split; try lia. exact E.
    + intro H. apply IH in H. destruct H as [H1 [H2 H3]].
      replace (p - i) with (S (p - S i)) by lia. simpl.
      repeat split; try lia; [exact H2|].
      intros [|j] Hj; simpl; [exact E | apply H3; lia].
Qed.

Lemma find_from_None (sub l : bytes) (i : nat) :
  find_from sub l i = None ->
  forall j, j <= length l -> starts_with sub (skipn j l) = false.
Proof.
  revert i. induction l as [|b l IH]; intros i; simpl.
  - destruct (starts_with sub []) eqn:E; [discriminate|].
    intros _ j Hj. now rewrite skipn_nil.
  - destruct (starts_with sub (b :: l)) eqn:E; [discriminate|].
    intros H [|j] Hj; simpl; [exact E | eapply IH; [exact H | lia]].
Qed.

Lemma match_at_shift (data sub : bytes) (start j : nat) :
  start + j <= length data ->
  match_at data sub (start + j) = starts_with sub (skipn j (skipn start data)).
Proof.
  intro H. unfold match_at. rewrite skipn_skipn.
  replace (j + start) with (start + j) by lia.
  now rewrite (proj2 (Nat.leb_le _ _) H).
Qed.

(** A hit of [find]: at or after [start], inside the buffer, a match, and
    the first one. *)
Lemma find_Some (data sub : bytes) (start pos : nat) :
  find data sub start = Some pos ->
  start <= pos <= length data
  /\ match_at data sub pos = true
  /\ forall j, start <= j < pos -> match_at data sub j = false.
Proof.
  unfold find. destruct (start <=? length data) eqn:E; [|discriminate].
  apply Nat.leb_le in E. intro H. apply find_from_Some in H.
  rewrite length_skipn in H. destruct H as [H1 [H2 H3]].
  repeat split; try lia.
  - replace pos with (start + (pos - start)) by lia.
    rewrite match_at_shift by lia. exact H2.
  - intros j Hj. replace j with (start + (j - start)) by lia.
    rewrite match_at_shift by lia. apply H3. lia.
Qed.

(** No hit: no match at or after [start]. *)
Lemma find_None (data sub : bytes) (start : nat) :
  find data sub start = None ->
  forall j, start <= j -> match_at data sub j = false.
Proof.
  unfold find. intros H j Hj.
  destruct (j <=? length data) eqn:Ej.
  - apply Nat.leb_le in Ej.
    rewrite (proj2 (Nat.leb_le start (length data))) in H by lia.
    replace j with (start + (j - start)) by lia.
    rewrite match_at_shift by lia.
    eapply find_from_None; [exact H | rewrite length_skipn; lia].
  - unfold match_at. now rewrite Ej.
Qed.

(** Past the end of the buffer [find] answers [-1], whatever [sub]. *)
Lemma find_past_end (data sub : bytes) (start : nat) :
  length data < start -> find data sub start = None.
Proof.
  intro H. unfold find.
  now rewrite (proj2 (Nat.leb_gt start (length data)) H).
Qed.

End Find.

(** ** The search loops of [find_marker_strings] *)

Section SearchLoop.

Import MarkerSearch.

Variables (data pat : bytes) (t : str) (e : encoding_name).

Lemma filter_none {A} (f : A -> bool) (l : list A) :
  (forall x, In x l -> f x = false) -> filter f l = [].
Proof.
  induction l as [|a l IH]; simpl; intro H; [reflexivity|].
  rewrite (H a) by now left. apply IH. intros x Hx. apply H. now right.
Qed.

Lemma hits_none (from : nat) :
  (forall j, from <= j -> match_at data pat j = false) ->
  hits data pat from = [].
Proof.
  intro H. apply filter_none. intros x Hx. apply in_seq in Hx. apply H. lia.
Qed.

Lemma hits_first (from pos : nat) :
  from <= pos <= length data ->
  match_at data pat pos = true ->
  (forall j, from <= j < pos -> match_at data pat j = false) ->
  hits data pat from = pos :: hits data pat (pos + 1).
Proof.
  intros Hpos Hm Hbefore. unfold hits.
  replace (S (length data) - from)
    with ((pos - from) + S (length data - pos)) by lia.
  rewrite seq_app, filter_app.
  rewrite filter_none by (intros x Hx; apply in_seq in Hx; apply Hbefore; lia).
  replace (from + (pos - from)) with pos by lia.
  simpl. rewrite Hm. f_equal.
  replace (pos + 1) with (S pos) by lia.
  destruct (length data - pos) eqn:E.
  - replace (length data - S pos) with 0 by lia. reflexivity.
  - replace (length data - S pos) with n by lia.
    reflexivity.
Qed.

(** With a budget above the number of offsets left, the loop ends and has
    appended one entry per offset at which [pat] occurs, in ascending
    order. *)
Lemma search_loop_hits (fuel offset : nat) (results : list occurrence) :
  S (length data) - offset < fuel ->
  search_loop fuel data pat t e offset results
  = Ok (results ++ map (occurrence_at data pat t e) (hits data pat offset)).
Proof.
  revert offset results. induction fuel as [|fuel IH]; intros offset results Hf.
  - lia.
  - simpl. destruct (Py.find data pat offset) as [pos|] eqn:Efind.
    + apply find_Some in Efind. destruct Efind as [Hpos [Hm Hbefore]].
      rewrite IH by lia.
      rewrite (hits_first Hpos Hm Hbefore). simpl.
      rewrite <- app_assoc. reflexivity.
    + rewrite hits_none by (now apply find_None).
      simpl. now rewrite app_nil_r.
Qed.

Lemma search_loop_budget (offset : nat) (results : list occurrence) :
  search_loop (loop_budget data) data pat t e offset results
  = Ok (results ++ map (occurrence_at data pat t e) (hits data pat offset)).
Proof. apply search_loop_hits. unfold loop_budget. lia. Qed.

Lemma in_hits (from k : nat) :
  In k (hits data pat from) <-> from <= k /\ occurs_at data pat k.
Proof.
  unfold hits. rewrite filter_In, in_seq, match_at_occurs.
  unfold occurs_at. split.
  - intros [H1 H2]. split; [lia | exact H2].
  - intros [H1 H2]. split; [lia | exact H2].
Qed.

End SearchLoop.

(** ** Encoding a term *)

Section Encoding.

Import Codec.

(** The two codecs refuse the same code points. *)
Lemma codecs_refuse_alike (c : N) :
  utf8_char c = None <-> utf16le_char c = None.
Proof.
  unfold utf8_char, utf16le_char.
  destruct (c <? 0x80)%N eqn:E1; destruct (c <? 0x800)%N eqn:E2;
    destruct (c <? 0x10000)%N eqn:E3; destruct (c <? 0x110000)%N eqn:E4;
    destruct (is_surrogate c) eqn:E5;
    try (split; intro; (discriminate || reflexivity));
    unfold is_surrogate in E5;
    repeat match goal with
           | H : (_ <? _)%N = true |- _ => apply N.ltb_lt in H
           | H : (_ <? _)%N = false |- _ => apply N.ltb_ge in H
           | H : (_ && _) = true |- _ => apply andb_true_iff in H; destruct H
           | H : (_ <=? _)%N = true |- _ => apply N.leb_le in H
           end; lia.
Qed.

Lemma encode_with_alike (codec1 codec2 : string) (s : str) (p1 p2 : nat) :
  (exists b, encode_with utf8_char codec1 p1 s = Ok b)
  <-> (exists b, encode_with utf16le_char codec2 p2 s = Ok b).
Proof.
  revert p1 p2. induction s as [|c s IH]; intros p1 p2; simpl.
  - split; intros _; now eexists.
  - pose proof (codecs_refuse_alike c) as Hc.
    destruct (utf8_char c) as [b8|]; destruct (utf16le_char c) as [b16|].
    + specialize (IH (S p1) (S p2)).
      destruct (encode_with utf8_char codec1 (S p1) s);
        destruct (encode_with utf16le_char codec2 (S p2) s); simpl;
        split; intros [b Hb]; try discriminate; try (now eexists);
        exfalso.
      * destruct (proj1 IH) as [? ?]; [now eexists | discriminate].
      * destruct (proj1 IH) as [? ?]; [now eexists | discriminate].
      * destruct (proj2 IH) as [? ?]; [now eexists | discriminate].
      * destruct (proj2 IH) as [? ?]; [now eexists | discriminate].
    + discriminate (proj2 Hc eq_refl).
    + discriminate (proj1 Hc eq_refl).
    + split; intros [b Hb]; discriminate.
Qed.

Lemma encode_utf8_utf16le (s : str) (b : bytes) :
  encode_utf8 s = Ok b -> exists w, encode_utf16le s = Ok w.
Proof.
  intro H. apply (proj1 (encode_with_alike "utf-8" "utf-16-le" s 0 0)).
  now exists b.
Qed.

Lemma encode_utf16le_utf8 (s : str) (w : bytes) :
  encode_utf16le s = Ok w -> exists b, encode_utf8 s = Ok b.
Proof.
  intro H. apply (proj2 (encode_with_alike "utf-8" "utf-16-le" s 0 0)).
  now exists w.
Qed.

End Encoding.

(** ** [find_marker_strings] *)

Section MarkerSearchFacts.

Import MarkerSearch Codec.

(** One term whose two encodings exist: the UTF-8 hits, then the UTF-16LE
    hits, after what was found before. *)
Lemma search_term_hits (data : bytes) (results : list occurrence) (t : str)
      (p w : bytes) :
  encode_utf8 t = Ok p ->
  encode_utf16le t = Ok w ->
  search_term data results t
  = Ok (results
        ++ map (occurrence_at data p t UTF8) (hits data p 0)
        ++ map (occurrence_at data w t UTF16LE) (hits data w 0)).
Proof.
  intros Hp Hw. unfold search_term. rewrite Hp, Hw. simpl.
  rewrite search_loop_budget. simpl.
  rewrite search_loop_budget. now rewrite <- app_assoc.
Qed.

Lemma find_one_term (data : bytes) (t : str) (p w : bytes) :
  encode_utf8 t = Ok p ->
  encode_utf16le t = Ok w ->
  find_marker_strings (Loaded data) [t]
  = Ok ([], map (occurrence_at data p t UTF8) (hits data p 0)
            ++ map (occurrence_at data w t UTF16LE) (hits data w 0)).
Proof.
  intros Hp Hw. unfold find_marker_strings. simpl.
  now rewrite (search_term_hits data [] t Hp Hw).
Qed.

Lemma encode_with_runs (enc : N -> option bytes) (codec : string) (s : str)
      (position : nat) :
  encode_with enc codec position s <> OutOfFuel.
Proof.
  revert position. induction s as [|c s IH]; intro position; simpl.
  - discriminate.
  - destruct (enc c); [|discriminate].
    specialize (IH (S position)).
    destruct (encode_with enc codec (S position) s); simpl;
      try discriminate. contradiction.
Qed.

Lemma search_term_runs (data : bytes) (results : list occurrence) (t : str) :
  search_term data results t <> OutOfFuel.
Proof.
  unfold search_term.
  pose proof (@encode_with_runs utf8_char "utf-8" t 0) as H8.
  pose proof (@encode_with_runs utf16le_char "utf-16-le" t 0) as H16.
  unfold encode_utf8, encode_utf16le.
  destruct (encode_with utf8_char "utf-8" 0 t); simpl;
    try discriminate; try contradiction.
  destruct (encode_with utf16le_char "utf-16-le" 0 t); simpl;
    try discriminate; try contradiction.
  rewrite search_loop_budget. simpl. rewrite search_loop_budget. discriminate.
Qed.

Lemma search_terms_loop_runs (data : bytes) (terms : list str)
      (results : list occurrence) :
  search_terms_loop data results terms <> OutOfFuel.
Proof.
  revert results. induction terms as [|t terms IH]; intro results; simpl.
  - discriminate.
  - pose proof (search_term_runs data results t) as Ht.
    destruct (search_term data results t); simpl;
      try discriminate; try contradiction. apply IH.
Qed.

(** [find_marker_strings] always returns: a list, with the lines it
    printed. *)
Lemma find_marker_strings_returns (file : read_result) (terms : list str) :
  exists out results, find_marker_strings file terms = Ok (out, results).
Proof.
  unfold find_marker_strings. destruct file as [data|msg]; simpl.
  - pose proof (search_terms_loop_runs data terms []) as H.
    destruct (search_terms_loop data [] terms); simpl.
    + now eexists _, _.
    + now eexists _, _.
    + contradiction.
  - now eexists _, _.
Qed.

Lemma hits_empty_pattern (data : bytes) :
  hits data [] 0 = seq 0 (S (length data)).
Proof.
  unfold hits. rewrite Nat.sub_0_r.
  apply forallb_filter_id. apply forallb_forall.
  intros k Hk. apply in_seq in Hk. unfold match_at. simpl.
  rewrite andb_true_r. apply Nat.leb_le. lia.
Qed.

End MarkerSearchFacts.

(** C1. Completeness of the marker search. When the term [t] has a UTF-8
    encoding [p], it also has a UTF-16LE encoding [w], the search of [data]
    for [[t]] returns a list, and that list holds a ['UTF-8'] entry with
    position [k] for every offset [k] at which [p] occurs verbatim in [data],
    and a ['UTF-16LE'] entry with position [k] for every offset [k] at which
    [w] occurs. *)
Theorem C1_marker_search_complete (data : bytes) (t : str) (k : nat) (p : bytes)
        (Hp : Codec.encode_utf8 t = Ok p) :
  exists w results,
    Codec.encode_utf16le t = Ok w
    /\ find_marker_strings (Loaded data) [t] = Ok ([], results)
    /\ (occurs_at data p k ->
        exists o, In o results /\ position o = k /\ encoding o = UTF8 /\ term o = t)
    /\ (occurs_at data w k ->
        exists o, In o results /\ position o = k /\ encoding o = UTF16LE /\ term o = t).
Proof.
  destruct (encode_utf8_utf16le t Hp) as [w Hw].
  exists w. eexists. split; [exact Hw|].
  split; [apply (find_one_term data t Hp Hw)|].
  split; intro Hocc.
  - exists (occurrence_at data p t UTF8 k). repeat split.
    apply in_or_app. left. apply in_map. apply in_hits. split; [lia | exact Hocc].
  - exists (occurrence_at data w t UTF16LE k). repeat split.
    apply in_or_app. right. apply in_map. apply in_hits. split; [lia | exact Hocc].
Qed.

(** The term "A" in the two bytes [41 00]: its UTF-8 encoding [41] and its
    UTF-16LE encoding [41 00] both occur at offset 0, and both are
    reported. *)
Lemma C1_marker_search_complete_witness :
  exists results,
    find_marker_strings (Loaded [x41; x00]) [[65%N]] = Ok ([], results)
    /\ (exists o, In o results /\ position o = 0 /\ encoding o = UTF8)
    /\ (exists o, In o results /\ position o = 0 /\ encoding o = UTF16LE).
Proof.
  destruct (@C1_marker_search_complete [x41; x00] [65%N] 0 [x41] eq_refl)
    as [w [results [Hw [Hfind [Hnarrow Hwide]]]]].
  injection Hw as <-.
  exists results. split; [exact Hfind|]. split.
  - destruct Hnarrow as [o [H1 [H2 [H3 _]]]].
    + split; [simpl; lia | reflexivity].
    + now exists o.
  - destruct Hwide as [o [H1 [H2 [H3 _]]]].
    + split; [simpl; lia | reflexivity].
    + now exists o.
Defined.

(** C2. Overlapping matches. Each iteration that finds [pat] at [pos]
    appends one entry and searches on from [pos + 1]; the loop as a whole
    appends exactly one entry per offset at which [pat] occurs, overlapping
    or not, in ascending order; and the search of [b"aaa"] for ["aa"] returns
    exactly two entries, both ['UTF-8'], at positions 0 and 1. *)
Theorem C2_overlapping_matches :
  (forall data pat t e fuel offset results,
      MarkerSearch.search_loop (S fuel) data pat t e offset results
      = match Py.find data pat offset with
        | None => Ok results
        | Some pos =>
            MarkerSearch.search_loop fuel data pat t e (pos + 1)
              (results ++ [occurrence_at data pat t e pos])
        end)
  /\ (forall data pat t e,
         MarkerSearch.search_loop (MarkerSearch.loop_budget data) data pat t e 0 []
         = Ok (map (occurrence_at data pat t e) (hits data pat 0)))
  /\ (forall data pat k, In k (hits data pat 0) <-> occurs_at data pat k)
  /\ (forall data pat, NoDup (hits data pat 0))
  /\ find_marker_strings (Loaded ["a"; "a"; "a"]%byte) [[97; 97]%N]
     = Ok ([], [mkOccurrence [97; 97]%N UTF8 0 ["a"; "a"; "a"]%byte;
                mkOccurrence [97; 97]%N UTF8 1 ["a"; "a"; "a"]%byte]).
Proof.
  split; [reflexivity|].
  split; [intros; now rewrite search_loop_budget|].
  split.
  - intros data pat k. rewrite in_hits. split; [tauto | intro H; split; [lia | exact H]].
  - split; [|reflexivity].
    intros data pat. unfold hits. apply NoDup_filter, seq_NoDup.
Qed.

(** C8. Termination of the search loops. From any offset the loop ends
    within its budget, and a larger budget gives the same list; the reason:
    a hit lies at or after the offset and inside the buffer, so the next
    offset [pos + 1] is larger and at most [len(data) + 1], and [find]
    reports no hit past the end of the buffer or when no occurrence is left
    at or after the offset. Hence neither the loop over the
    terms nor [find_marker_strings] can run forever. *)
Theorem C8_search_terminates (data pat : bytes) (t : str) (e : encoding_name)
        (offset : nat) (results : list occurrence) :
  (exists r,
      MarkerSearch.search_loop (MarkerSearch.loop_budget data) data pat t e offset results = Ok r
      /\ forall fuel, MarkerSearch.loop_budget data <= fuel ->
                      MarkerSearch.search_loop fuel data pat t e offset results = Ok r)
  /\ (forall pos, Py.find data pat offset = Some pos ->
                  offset < pos + 1 <= length data + 1)
  /\ (length data < offset -> Py.find data pat offset = None)
  /\ ((forall j, offset <= j -> ~ occurs_at data pat j) ->
      Py.find data pat offset = None)
  /\ (forall terms, MarkerSearch.search_terms_loop data results terms <> OutOfFuel)
  /\ (forall file terms, find_marker_strings file terms <> OutOfFuel).
Proof.
  split.
  - eexists. split; [apply search_loop_budget|].
    intros fuel Hfuel. apply search_loop_hits.
    unfold MarkerSearch.loop_budget in Hfuel. lia.
  - split.
    + intros pos H. apply find_Some in H. lia.
    + split; [apply find_past_end|].
      split.
      { intro Hnone. destruct (Py.find data pat offset) as [pos|] eqn:E;
          [|reflexivity].
        apply find_Some in E. destruct E as [Hpos [Hm _]].
        apply match_at_occurs in Hm. exfalso. apply (Hnone pos); [lia | exact Hm]. }
      split; [intro terms; apply search_terms_loop_runs|].
      intros file terms.
      destruct (find_marker_strings_returns file terms) as [out [r H]].
      rewrite H. discriminate.
Qed.

(** C10. The empty term. Both encodings of [""] are empty, and the search
    of [data] for [[""]] returns one ['UTF-8'] entry for each offset
    [0..len(data)], then one ['UTF-16LE'] entry for each of them:
    [2 * (len(data) + 1)] entries. *)
Theorem C10_empty_term (data : bytes) :
  Codec.encode_utf8 [] = Ok []
  /\ Codec.encode_utf16le [] = Ok []
  /\ exists results,
      find_marker_strings (Loaded data) [[]] = Ok ([], results)
      /\ results = map (occurrence_at data [] [] UTF8) (seq 0 (S (length data)))
                   ++ map (occurrence_at data [] [] UTF16LE) (seq 0 (S (length data)))
      /\ map position results = seq 0 (S (length data)) ++ seq 0 (S (length data))
      /\ length results = 2 * (length data + 1).
Proof.
  split; [reflexivity|]. split; [reflexivity|].
  eexists. split.
  - pose proof (@find_one_term data [] [] [] eq_refl eq_refl) as H.
    rewrite hits_empty_pattern in H. exact H.
  - split; [reflexivity|]. split.
    + rewrite map_app, !map_map. simpl. now rewrite !map_id.
    + rewrite length_app, !length_map, !length_seq. lia.
Qed.

(** ** The string scan *)

Section StringScanFacts.

Import StringScan.

Lemma enumerate_from_snoc {A} (l : list A) (b : A) (s : nat) :
  combine (seq s (length (l ++ [b]))) (l ++ [b])
  = combine (seq s (length l)) l ++ [(s + length l, b)].
Proof.
  revert s. induction l as [|a l IH]; intro s; simpl.
  - now rewrite Nat.add_0_r.
  - rewrite IH. now rewrite Nat.add_succ_r.
Qed.

Lemma enumerate_snoc {A} (l : list A) (b : A) :
  Py.enumerate (l ++ [b]) = Py.enumerate l ++ [(length l, b)].
Proof. unfold Py.enumerate. now rewrite enumerate_from_snoc. Qed.

(** The state after one more byte: every state the loop goes through is
    the [scan] of a prefix of the buffer. *)
Lemma scan_snoc (pre : bytes) (b : byte) :
  scan (pre ++ [b]) = step (scan pre) (length pre, b).
Proof. unfold scan. now rewrite enumerate_snoc, fold_left_app. Qed.

Lemma printable_not_null (b : byte) :
  printable b = true -> (Byte.to_N b =? 0)%N = false.
Proof.
  unfold printable. rewrite andb_true_iff, N.leb_le. intros [H _].
  apply N.eqb_neq. lia.
Qed.

Lemma printable_ascii (b : byte) :
  printable b = true -> (Byte.to_N b <? 128)%N = true.
Proof.
  unfold printable. rewrite andb_true_iff, !N.leb_le. intros [_ H].
  apply N.ltb_lt. lia.
Qed.

(** The loop invariant: [current_string] holds printable bytes only. *)
Lemma current_string_printable (data : bytes) :
  forallb printable (snd (scan data)) = true.
Proof.
  induction data as [|b data IH] using rev_ind; [reflexivity|].
  rewrite scan_snoc. destruct (scan data) as [strings current_string].
  simpl in *. destruct (Byte.to_N b =? 0)%N; [reflexivity|].
  destruct (printable b) eqn:E; [|reflexivity].
  simpl. rewrite forallb_app, IH. simpl. now rewrite E.
Qed.

(** A run of printable bytes decodes, to its own bytes. *)
Lemma decode_printable (run : bytes) (position : nat) :
  forallb printable run = true ->
  Utf8.decode_from position run = Ok (map Byte.to_N run).
Proof.
  revert position. induction run as [|b run IH]; intro position; simpl.
  - reflexivity.
  - rewrite andb_true_iff. intros [Hb Hrun].
    rewrite (printable_ascii b Hb). now rewrite IH.
Qed.

Lemma ascii_like_printable (run : bytes) :
  forallb printable run = true -> ascii_like (map Byte.to_N run) = true.
Proof.
  unfold ascii_like. induction run as [|b run IH]; simpl; [reflexivity|].
  rewrite andb_true_iff. intros [Hb Hrun].
  now rewrite (printable_ascii b Hb), IH.
Qed.

(** On a run of printable bytes the length test alone decides. *)
Lemma flush_printable (i : nat) (run : bytes) (strings : list (nat * str)) :
  forallb printable run = true ->
  flush i run strings
  = if 2 <? length run
    then strings ++ [(i - length run, map Byte.to_N run)]
    else strings.
Proof.
  intro H. unfold flush, Utf8.decode.
  rewrite (decode_printable run 0 H), (ascii_like_printable run H), length_map.
  now destruct (2 <? length run).
Qed.

(** Printable bytes at the end of the buffer add no string. *)
Lemma strings_trailing_run (data run : bytes) :
  forallb printable run = true ->
  strings (data ++ run) = strings data.
Proof.
  revert data. induction run as [|b run IH]; intros data H.
  - now rewrite app_nil_r.
  - simpl in H. apply andb_true_iff in H. destruct H as [Hb Hrun].
    change (data ++ b :: run) with (data ++ [b] ++ run).
    rewrite app_assoc, (IH _ Hrun). unfold strings. rewrite scan_snoc.
    destruct (scan data) as [strs cur]. simpl.
    now rewrite (printable_not_null b Hb), Hb.
Qed.

End StringScanFacts.

(** C3. The run in progress at the end of the buffer is not evaluated:
    printable bytes that end the buffer never add a string, whatever their
    number, while the same run followed by a null byte is reported. The
    three bytes ["abc"] give no string and ["abc\0"] gives ["abc"] at 0;
    without its last null byte the buffer [\0 Hello \0 Hi \0 World! \0]
    loses ["World!"]. *)
Theorem C3_trailing_run_not_flushed :
  (forall data run,
      forallb StringScan.printable run = true ->
      StringScan.strings (data ++ run) = StringScan.strings data)
  /\ StringScan.strings ["a"; "b"; "c"]%byte = []
  /\ StringScan.strings ["a"; "b"; "c"; x00]%byte = [(0, [97; 98; 99]%N)]
  /\ StringScan.strings
       [x00; "H"; "e"; "l"; "l"; "o"; x00; "H"; "i"; x00;
        "W"; "o"; "r"; "l"; "d"; "!"; x00]%byte
     = [(1, [72; 101; 108; 108; 111]%N); (10, [87; 111; 114; 108; 100; 33]%N)]
  /\ StringScan.strings
       [x00; "H"; "e"; "l"; "l"; "o"; x00; "H"; "i"; x00;
        "W"; "o"; "r"; "l"; "d"; "!"]%byte
     = [(1, [72; 101; 108; 108; 111]%N)].
Proof.
  split; [exact strings_trailing_run|].
  repeat split; reflexivity.
Qed.

(** The guard of [StringScan.flush] is a real one: three bytes that are no
    UTF-8 are skipped, and so are three bytes that decode to two characters
    and four that decode to a character above 127. *)
Example flush_guard_rejects :
  StringScan.flush 3 [xff; xff; xff] [] = []
  /\ StringScan.flush 3 [xc3; xa9; x41] [] = []
  /\ StringScan.flush 4 [xc3; xa9; x41; x41] [] = []
  /\ StringScan.flush 3 [x41; x42; x43] [] = [(0, [65; 66; 67]%N)].
Proof. repeat split; reflexivity. Qed.

(** C9. The decode guard cannot fire. Every state of the loop is the scan
    of a prefix of the buffer, and in every such state [current_string]
    holds only bytes in 32..126; such a run always decodes, to code points
    below 128, one per byte; so when the loop flushes its run, the run is
    reported exactly when it is longer than 2. *)
Theorem C9_decode_guard_unreachable :
  (forall pre b,
      StringScan.scan (pre ++ [b]) = StringScan.step (StringScan.scan pre) (length pre, b))
  /\ (forall data,
         Forall (fun b => (32 <= Byte.to_N b <= 126)%N) (snd (StringScan.scan data)))
  /\ (forall run,
         Forall (fun b => (32 <= Byte.to_N b <= 126)%N) run ->
         exists decoded,
           Utf8.decode run = Ok decoded
           /\ length decoded = length run
           /\ Forall (fun c => (c < 128)%N) decoded)
  /\ (forall data i strings,
         let run := snd (StringScan.scan data) in
         StringScan.flush i run strings
         = if 2 <? length run
           then strings ++ [(i - length run, map Byte.to_N run)]
           else strings).
Proof.
  assert (Hiff : forall run,
             forallb StringScan.printable run = true
             <-> Forall (fun b => (32 <= Byte.to_N b <= 126)%N) run).
  { intro run. rewrite forallb_forall, Forall_forall.
    split; intros H b Hb; specialize (H b Hb); unfold StringScan.printable in *.
    - apply andb_true_iff in H. rewrite !N.leb_le in H. exact H.
    - apply andb_true_iff. now rewrite !N.leb_le. }
  split; [exact scan_snoc|].
  split; [intro data; apply Hiff, current_string_printable|].
  split.
  - intros run Hrun. apply Hiff in Hrun.
    exists (map Byte.to_N run). split; [apply (decode_printable run 0 Hrun)|].
    split; [apply length_map|].
    pose proof (ascii_like_printable run Hrun) as H.
    unfold StringScan.ascii_like in H. rewrite forallb_forall in H.
    apply Forall_forall. intros c Hc. now apply N.ltb_lt, H.
  - intros data i strings run. apply flush_printable, current_string_printable.
Qed.

(** ** The 10-second boundary in binary64 *)

Section BoundaryFacts.

Import Boundary.
Local Open Scope Z_scope.

Lemma wB_value : wB = 2 ^ 63.
Proof. reflexivity. Qed.

Lemma two_pow_spec (k : nat) :
  (k < 63)%nat -> to_Z (two_pow k) = 2 ^ Z.of_nat k.
Proof.
  induction k as [|k IH]; intro Hk.
  - reflexivity.
  - simpl two_pow. rewrite mul_spec, IH by lia.
    change (to_Z 2) with 2.
    rewrite Nat2Z.inj_succ, Z.pow_succ_r by lia.
    apply Z.mod_small. rewrite wB_value. split; [lia|].
    rewrite <- Z.pow_succ_r by lia.
    apply Z.pow_lt_mono_r; lia.
Qed.

(** What the halving check establishes. *)
Lemma all_in_block_spec (k : nat) (f : int -> bool) :
  (k < 63)%nat ->
  forall lo, to_Z lo + 2 ^ Z.of_nat k <= wB ->
  all_in_block k f lo = true ->
  forall x, to_Z lo <= to_Z x < to_Z lo + 2 ^ Z.of_nat k -> f x = true.
Proof.
  induction k as [|k IH]; intros Hk lo Hlo Hall x Hx.
  - simpl in *. replace x with lo; [exact Hall|].
    apply to_Z_inj. lia.
  - simpl in Hall. apply andb_true_iff in Hall. destruct Hall as [H1 H2].
    rewrite Nat2Z.inj_succ, Z.pow_succ_r in Hlo, Hx by lia.
    assert (Hw : to_Z (lo + two_pow k) = to_Z lo + 2 ^ Z.of_nat k).
    { rewrite add_spec, two_pow_spec by lia. apply Z.mod_small.
      pose proof (to_Z_bounded lo). lia. }
    destruct (Z_lt_le_dec (to_Z x) (to_Z lo + 2 ^ Z.of_nat k)) as [Hlt|Hge].
    + apply (IH ltac:(lia) lo); [lia | exact H1 | lia].
    + apply (IH ltac:(lia) (lo + two_pow k)%uint63); [lia | exact H2 | lia].
Qed.

(** The check itself, by evaluation. *)
Lemma all_agree : all_in_block 24 agrees 0%uint63 = true.
Proof. vm_cast_no_check (eq_refl true). Qed.

Lemma to_Z_of_N (v : N) :
  (v < 10000000)%N -> to_Z (of_Z (Z.of_N v)) = Z.of_N v.
Proof.
  intro H. rewrite of_Z_spec. apply Z.mod_small. rewrite wB_value. lia.
Qed.

(** In binary64 as in the rationals: below ten million, [value / 44100]
    lies strictly between 10 and 300 exactly when [value] is above
    441000. *)
Lemma boundary_exact (v : N) :
  (v < 10000000)%N ->
  FieldScan.in_song (FieldScan.seconds_of v) = (441000 <? v)%N.
Proof.
  intro Hv. pose proof (to_Z_of_N Hv) as Hx.
  assert (Ha : agrees (of_Z (Z.of_N v)) = true).
  { apply (@all_in_block_spec 24 agrees ltac:(lia) 0%uint63).
    - rewrite wB_value. change (to_Z 0) with 0. lia.
    - exact all_agree.
    - rewrite Hx. change (to_Z 0) with 0.
      change (2 ^ Z.of_nat 24) with 16777216. lia. }
  unfold agrees in Ha.
  assert (Hlt : (of_Z (Z.of_N v) <? 10000000)%uint63 = true).
  { apply ltb_spec. rewrite Hx. change (to_Z 10000000) with 10000000. lia. }
  rewrite Hlt in Ha. apply eqb_prop in Ha.
  change (FieldScan.in_song (FieldScan.seconds_of v))
    with (let s := PrimFloat.div (PrimFloat.of_uint63 (of_Z (Z.of_N v))) rate in
          PrimFloat.ltb ten s && PrimFloat.ltb s three_hundred).
  cbv zeta. rewrite Ha.
  destruct (441000 <? v)%N eqn:E.
  - apply ltb_spec. rewrite Hx. change (to_Z 441000) with 441000.
    apply N.ltb_lt in E. lia.
  - apply N.ltb_ge in E.
    destruct (441000 <? of_Z (Z.of_N v))%uint63 eqn:E'; [|reflexivity].
    apply ltb_spec in E'. rewrite Hx in E'.
    change (to_Z 441000) with 441000 in E'. lia.
Qed.

End BoundaryFacts.

(** ** The 4-byte scan *)

Section FieldScanFacts.

Import FieldScan.

Lemma range_step_4 (stop i : nat) :
  In i (Py.range_step stop 4) <-> (exists k, i = 4 * k) /\ i < stop.
Proof.
  unfold Py.range_step. rewrite in_map_iff. simpl (4 - 1).
  pose proof (Nat.div_mod_eq (stop + 3) 4) as Hd.
  pose proof (Nat.mod_upper_bound (stop + 3) 4 ltac:(lia)) as Hm.
  split.
  - intros [k [<- Hk]]. apply in_seq in Hk. split; [exists k; lia | lia].
  - intros [[k ->] Hi]. exists k. split; [lia|]. apply in_seq. lia.
Qed.

(** The offsets the loop visits: the multiples of 4 with more than four
    bytes left. *)
Lemma in_offsets (data : bytes) (i : nat) :
  In i (offsets data) <-> (exists k, i = 4 * k) /\ i + 4 < length data.
Proof.
  unfold offsets. rewrite range_step_4.
  split; intros [H1 H2]; (split; [exact H1 | lia]).
Qed.

Lemma consider_kept (i : nat) (acc : list candidate) (value : N) :
  consider i acc value = acc ++ kept i value.
Proof.
  unfold consider, kept, plausible.
  destruct ((0 <? value)%N && (value <? 10000000)%N); simpl.
  - destruct (in_song (seconds_of value)); [reflexivity | now rewrite app_nil_r].
  - now rewrite app_nil_r.
Qed.

Lemma window_app (data : bytes) (acc : list candidate) (i : nat) :
  window data acc i = acc ++ window_adds data i.
Proof.
  unfold window, window_adds.
  destruct (unpack_le (Py.slice data i (i + 4))); simpl;
    try now rewrite app_nil_r.
  destruct (unpack_be (Py.slice data i (i + 4))); simpl;
    try now rewrite app_nil_r.
  now rewrite !consider_kept, <- app_assoc.
Qed.

Lemma fold_window (data : bytes) (l : list nat) (acc : list candidate) :
  fold_left (window data) l acc = acc ++ flat_map (window_adds data) l.
Proof.
  revert acc. induction l as [|i l IH]; intro acc; simpl.
  - now rewrite app_nil_r.
  - now rewrite IH, window_app, <- app_assoc.
Qed.

Lemma potential_markers_flat (data : bytes) :
  potential_markers data = flat_map (window_adds data) (offsets data).
Proof. unfold potential_markers. now rewrite fold_window. Qed.

Lemma in_kept (i i' : nat) (value v : N) (s : float) :
  In (i', v, s) (kept i value)
  <-> i' = i /\ v = value /\ s = seconds_of value /\ plausible value = true.
Proof.
  unfold kept. destruct (plausible value); simpl.
  - split.
    + intros [[= <- <- <-]|[]]. now repeat split.
    + intros [-> [-> [-> _]]]. now left.
  - split; [intros [] | intros [_ [_ [_ H]]]; discriminate].
Qed.

Lemma in_window_adds (data : bytes) (i i' : nat) (v : N) (s : float) :
  In (i', v, s) (window_adds data i)
  <-> i' = i
      /\ (unpack_le (Py.slice data i (i + 4)) = Ok v
          \/ unpack_be (Py.slice data i (i + 4)) = Ok v)
      /\ s = seconds_of v /\ plausible v = true.
Proof.
  unfold window_adds.
  destruct (Py.slice data i (i + 4)) as [|b0 [|b1 [|b2 [|b3 [|b4 w]]]]]; simpl;
    try (split; [intros [] | intros [_ [[H|H] _]]; discriminate]).
  rewrite in_app_iff, !in_kept. split.
  - intros [[Hi [Hv [Hs Hp]]]|[Hi [Hv [Hs Hp]]]]; subst i' v s;
      repeat split; auto.
  - intros [Hi [[Hv|Hv] [Hs Hp]]]; injection Hv as Hv; subst i' v s;
      [left | right]; now repeat split.
Qed.

End FieldScanFacts.

Section FilterFacts.

Import FieldScan.
Local Open Scope float_scope.

Lemma in_song_bounds (s : float) :
  in_song s = true <-> (10 <? s) = true /\ (s <? 300) = true.
Proof.
  change (in_song s) with ((10 <? s) && (s <? 300)).
  apply andb_true_iff.
Qed.

Lemma plausible_iff (v : N) :
  plausible v = true
  <-> (0 < v < 10000000)%N
      /\ (10 <? seconds_of v) = true /\ (seconds_of v <? 300) = true.
Proof.
  unfold plausible.
  rewrite !andb_true_iff, !N.ltb_lt, in_song_bounds. tauto.
Qed.

Lemma in_potential_markers (data : bytes) (i : nat) (v : N) (s : float) :
  In (i, v, s) (potential_markers data)
  <-> In i (offsets data)
      /\ (unpack_le (Py.slice data i (i + 4)) = Ok v
          \/ unpack_be (Py.slice data i (i + 4)) = Ok v)
      /\ s = seconds_of v /\ plausible v = true.
Proof.
  rewrite potential_markers_flat, in_flat_map. split.
  - intros [i0 [Hi0 Hin]]. apply in_window_adds in Hin.
    destruct Hin as [-> H]. split; [exact Hi0 | exact H].
  - intros [Hi H]. exists i. split; [exact Hi|].
    apply in_window_adds. split; [reflexivity | exact H].
Qed.

End FilterFacts.

(** C4. The window at offset [len(data) - 4] is never examined: the loop
    visits the multiples of 4 that leave more than four bytes, so a buffer
    whose length is a multiple of 4 loses its last window. A buffer of the
    four bytes of 441001 has no window at all, and 441001 in the last four
    bytes of an 8-byte buffer is not found, while one more byte after it
    makes it a candidate. *)
Theorem C4_last_window_skipped :
  (forall data i,
      In i (FieldScan.offsets data) <-> (exists k, i = 4 * k) /\ i + 4 < length data)
  /\ (forall data, ~ In (length data - 4) (FieldScan.offsets data))
  /\ FieldScan.offsets [xa9; xba; x06; x00] = []
  /\ FieldScan.potential_markers [xa9; xba; x06; x00] = []
  /\ FieldScan.offsets [x00; x00; x00; x00; xa9; xba; x06; x00] = [0]
  /\ FieldScan.potential_markers [x00; x00; x00; x00; xa9; xba; x06; x00] = []
  /\ FieldScan.potential_markers [x00; x00; x00; x00; xa9; xba; x06; x00; x00]
     = [(4, 441001%N, FieldScan.seconds_of 441001)].
Proof.
  split; [exact in_offsets|].
  split.
  - intros data H. apply in_offsets in H. destruct H as [[k Hk] H]. lia.
  - repeat split; reflexivity.
Qed.

(** C5. The plausibility filter. An entry [(i, value, seconds)] is in
    [potential_markers] exactly when [i] is a visited offset, [value] is the
    little-endian or the big-endian value of the four bytes at [i],
    [0 < value < 10000000], [seconds] is the binary64 quotient
    [value / 44100] and [10 < seconds < 300]. For such a [value] the two
    binary64 comparisons hold exactly when [441000 < value]. In a window that
    is visited, 441000 is excluded, 441001 is included and 13230000 is
    excluded. *)
Theorem C5_plausibility_filter :
  (forall data i value seconds,
      In (i, value, seconds) (FieldScan.potential_markers data)
      <-> In i (FieldScan.offsets data)
          /\ (FieldScan.unpack_le (Py.slice data i (i + 4)) = Ok value
              \/ FieldScan.unpack_be (Py.slice data i (i + 4)) = Ok value)
          /\ (0 < value < 10000000)%N
          /\ seconds = FieldScan.seconds_of value
          /\ (10 <? seconds)%float = true /\ (seconds <? 300)%float = true)
  /\ (forall value,
         (0 < value < 10000000)%N ->
         ((10 <? FieldScan.seconds_of value)%float = true
          /\ (FieldScan.seconds_of value <? 300)%float = true)
         <-> (441000 < value)%N)
  /\ FieldScan.unpack_le [xa8; xba; x06; x00] = Ok 441000%N
  /\ FieldScan.potential_markers [xa8; xba; x06; x00; x00] = []
  /\ FieldScan.unpack_le [xa9; xba; x06; x00] = Ok 441001%N
  /\ FieldScan.potential_markers [xa9; xba; x06; x00; x00]
     = [(0, 441001%N, FieldScan.seconds_of 441001)]
  /\ FieldScan.unpack_le [xb0; xdf; xc9; x00] = Ok 13230000%N
  /\ FieldScan.potential_markers [xb0; xdf; xc9; x00; x00] = [].
Proof.
  split.
  - intros data i value seconds. rewrite in_potential_markers, plausible_iff.
    split.
    + intros [H1 [H2 [-> [H3 [H4 H5]]]]]. now repeat split.
    + intros [H1 [H2 [H3 [-> [H4 H5]]]]]. now repeat split.
  - split.
    + intros value [H0 Hmax].
      rewrite <- in_song_bounds, (boundary_exact Hmax). apply N.ltb_lt.
    + repeat split; reflexivity.
Qed.

(** ** [compare_files] *)

Section DiffFacts.

Import Diff.

Lemma difference_lines_no_extra (data1 data2 : bytes) (rest : list compare_line) :
  trailing_extra_bytes (difference_lines data1 data2 ++ rest)
  = trailing_extra_bytes rest.
Proof.
  unfold difference_lines.
  now destruct (first_difference data1 data2 0).
Qed.

Lemma trailing_of_report (data1 data2 : bytes) :
  trailing_extra_bytes (Comparing :: report data1 data2)
  = if length data1 <? length data2
    then Some (length data2 - length data1, firstn 50 (skipn (length data1) data2))
    else None.
Proof.
  unfold report. simpl. rewrite difference_lines_no_extra.
  unfold extra_lines. destruct (length data1 <? length data2); simpl.
  - now rewrite length_skipn.
  - reflexivity.
Qed.

End DiffFacts.

(** What the report says of trailing bytes: two files that load are
    compared without error, and the report has trailing bytes exactly when
    the second file is the longer one; then they are the bytes of the second
    file beyond the length of the first, shown by their number and their
    first 50 bytes. *)
Lemma trailing_bytes_of_second_file (data1 data2 : bytes) :
  exists out,
    compare_files (Loaded data1) (Loaded data2) = Ok out
    /\ Diff.reports_error out = false
    /\ Diff.trailing_extra_bytes out
       = if length data1 <? length data2
         then Some (length data2 - length data1,
                    firstn 50 (skipn (length data1) data2))
         else None.
Proof.
  eexists. split; [reflexivity|]. split.
  - unfold Diff.report, Diff.difference_lines, Diff.extra_lines. simpl.
    destruct (Diff.first_difference data1 data2 0);
      destruct (length data1 <? length data2); reflexivity.
  - apply trailing_of_report.
Qed.

(** C6. The longer first file is a missed case. Comparing [01 02] with
    [01 02 03] reports the trailing byte [03] of the larger file; comparing
    [01 02 03] with [01 02], where the sizes differ as well and the suffix of
    the larger file beyond the shorter one is the same [03], prints the sizes
    and the difference only, and reports no trailing bytes. *)
Theorem C6_longer_first_file_not_reported :
  (exists out,
      compare_files (Loaded [x01; x02]) (Loaded [x01; x02; x03]) = Ok out
      /\ Diff.trailing_extra_bytes out = Some (1, [x03]))
  /\ length [x01; x02; x03] <> length [x01; x02]
  /\ skipn (length [x01; x02]) [x01; x02; x03] = [x03]
  /\ compare_files (Loaded [x01; x02; x03]) (Loaded [x01; x02])
     = Ok [Comparing; File1Size 3; File2Size 2; SizeDifference (-1)]
  /\ Diff.trailing_extra_bytes
       [Comparing; File1Size 3; File2Size 2; SizeDifference (-1)] = None
  /\ compare_files_on reliable (Loaded [x01; x02; x03]) (Loaded [x01; x02])
     = ([Comparing; File1Size 3; File2Size 2; SizeDifference (-1)], Ok tt).
Proof.
  split; [eexists; split; reflexivity|].
  split; [simpl; lia|].
  repeat split; reflexivity.
Qed.


(** * Further properties *)

(** ** [find_marker_strings] over a list of terms *)

Section TermList.

Import MarkerSearch Codec.

(** A term either adds its hits or raises the codec's error; it raises
    nothing else. *)
Lemma search_term_cases (data : bytes) (results : list occurrence) (t : str) :
  (exists p w,
      encode_utf8 t = Ok p /\ encode_utf16le t = Ok w
      /\ search_term data results t = Ok (results ++ term_hits data t p w))
  \/ (exists codec position,
         search_term data results t = Raise (UnicodeEncodeError codec position)
         /\ (encode_utf8 t = Raise (UnicodeEncodeError codec position)
             \/ encode_utf16le t = Raise (UnicodeEncodeError codec position))).
Proof.
  destruct (encode_utf8 t) as [p|e|] eqn:E8.
  - destruct (encode_utf8_utf16le t E8) as [w E16].
    left. exists p, w. repeat split; try assumption.
    now apply search_term_hits.
  - right. unfold search_term. rewrite E8. simpl.
    unfold encode_utf8 in E8.
    assert (H : forall s position,
               encode_with utf8_char "utf-8" position s = Raise e ->
               exists codec position', e = UnicodeEncodeError codec position').
    { induction s as [|c s IH]; intros position; simpl; [discriminate|].
      destruct (utf8_char c).
      - destruct (encode_with utf8_char "utf-8" (S position) s) eqn:E; simpl;
          try discriminate.
        intros [= <-]. now apply (IH (S position)).
      - intros [= <-]. now eexists _, _. }
    destruct (H t 0 E8) as [codec [position ->]].
    exists codec, position. split; [reflexivity | now left].
  - exfalso. now apply (@encode_with_runs utf8_char "utf-8" t 0).
Qed.

(** What was found before a term is kept in front of what the term adds. *)
Lemma search_terms_loop_acc (data : bytes) (terms : list str)
      (results : list occurrence) :
  search_terms_loop data results terms
  = (found <- search_terms_loop data [] terms ;; Ok (results ++ found)).
Proof.
  revert results. induction terms as [|t terms IH]; intro results; simpl.
  - now rewrite app_nil_r.
  - destruct (search_term_cases data results t)
      as [[p [w [Hp [Hw Ht]]]]|[codec [position [Ht _]]]].
    + assert (Ht0 : search_term data [] t = Ok (term_hits data t p w))
        by now rewrite (search_term_hits data [] t Hp Hw).
      rewrite Ht, Ht0. simpl.
      rewrite (IH (results ++ term_hits data t p w)).
      rewrite (IH (term_hits data t p w)).
      destruct (search_terms_loop data [] terms); simpl; try reflexivity.
      now rewrite app_assoc.
    + rewrite Ht. simpl.
      destruct (search_term_cases data [] t)
        as [[p [w [Hp [Hw _]]]]|[codec' [position' [Ht' _]]]].
      * unfold search_term in Ht. rewrite Hp, Hw in Ht. simpl in Ht.
        rewrite search_loop_budget in Ht. simpl in Ht.
        rewrite search_loop_budget in Ht. discriminate.
      * rewrite Ht'. simpl.
        unfold search_term in Ht, Ht'.
        destruct (encode_utf8 t); simpl in *; try discriminate;
          [|congruence].
        destruct (encode_utf16le t); simpl in *; try discriminate;
          [|congruence].
        rewrite search_loop_budget in Ht. simpl in Ht.
        rewrite search_loop_budget in Ht. discriminate.
Qed.

Lemma search_terms_loop_app (data : bytes) (terms1 terms2 : list str)
      (results : list occurrence) :
  search_terms_loop data results (terms1 ++ terms2)
  = (found <- search_terms_loop data results terms1 ;;
     search_terms_loop data found terms2).
Proof.
  revert results. induction terms1 as [|t terms1 IH]; intro results; simpl.
  - reflexivity.
  - destruct (search_term data results t); simpl; try reflexivity. apply IH.
Qed.

(** A search that printed nothing is a search of a file that was read, and
    its list is the one the loop over the terms built. *)
Lemma find_marker_strings_silent (file : read_result) (terms : list str)
      (results : list occurrence) :
  find_marker_strings file terms = Ok ([], results)
  <-> exists data,
      file = Loaded data /\ search_terms_loop data [] terms = Ok results.
Proof.
  unfold find_marker_strings. destruct file as [data|msg]; simpl.
  - destruct (search_terms_loop data [] terms) as [r|e|] eqn:E; simpl.
    + split.
      * intros [= <-]. now exists data.
      * intros [data' [[= <-] H]]. rewrite E in H. now injection H as <-.
    + split; [discriminate|]. intros [data' [[= <-] H]]. congruence.
    + split; [discriminate|]. intros [data' [[= <-] H]]. congruence.
  - split; [discriminate|]. intros [data' [H _]]. discriminate.
Qed.

(** The entries of a successful loop over the terms. *)
Lemma in_search_terms_loop (data : bytes) (terms : list str)
      (results : list occurrence) :
  search_terms_loop data [] terms = Ok results ->
  forall o,
    In o results
    <-> In (term o) terms
        /\ exists pat,
          encode_as (encoding o) (term o) = Ok pat
          /\ occurs_at data pat (position o)
          /\ o = occurrence_at data pat (term o) (encoding o) (position o).
Proof.
  revert results. induction terms as [|t terms IH]; intros results; simpl.
  - intros [= <-] o. simpl. tauto.
  - destruct (search_term_cases data [] t)
      as [[p [w [Hp [Hw Ht]]]]|[codec [position [Ht _]]]];
      rewrite Ht; simpl; [|discriminate].
    rewrite search_terms_loop_acc.
    destruct (search_terms_loop data [] terms) as [found| |] eqn:E; simpl;
      try discriminate.
    intros [= <-] o. specialize (IH found eq_refl o).
    rewrite in_app_iff, IH. unfold term_hits. rewrite in_app_iff, !in_map_iff.
    split.
    + intros [[[k [<- Hk]]|[k [<- Hk]]]|[Hin Hpat]].
      * apply in_hits in Hk. split; [now left|]. exists p.
        split; [exact Hp|]. split; [apply Hk | reflexivity].
      * apply in_hits in Hk. split; [now left|]. exists w.
        split; [exact Hw|]. split; [apply Hk | reflexivity].
      * split; [now right | exact Hpat].
    + intros [[Hin|Hin] [pat [Hpat [Hocc Ho]]]].
      * left. subst t. destruct (encoding o) eqn:Eo; simpl in Hpat.
        -- left. exists (position o). rewrite Hp in Hpat. injection Hpat as <-.
           split; [now symmetry | apply in_hits; split; [lia | exact Hocc]].
        -- right. exists (position o). rewrite Hw in Hpat. injection Hpat as <-.
           split; [now symmetry | apply in_hits; split; [lia | exact Hocc]].
      * right. split; [exact Hin|]. now exists pat.
Qed.

End TermList.

Section MarkerSearchMore.

Import MarkerSearch Codec.

Lemma occurrence_at_context (data pat : bytes) (o : occurrence) :
  o = occurrence_at data pat (term o) (encoding o) (position o)
  <-> context o
      = Py.slice data (position o - 50)
                 (Nat.min (length data) (position o + length pat + 50)).
Proof.
  destruct o as [t e pos ctx]. unfold occurrence_at. simpl. split.
  - now intros [= ->].
  - now intros ->.
Qed.

(** The match inside its context window. *)
Lemma context_holds_match (data pat : bytes) (pos : nat) :
  occurs_at data pat pos ->
  let ctx := Py.slice data (pos - 50) (Nat.min (length data) (pos + length pat + 50)) in
  Py.slice ctx (Nat.min pos 50) (Nat.min pos 50 + length pat) = pat
  /\ length ctx
     = Nat.min pos 50 + length pat + Nat.min 50 (length data - (pos + length pat)).
Proof.
  intros [Hlen Hocc]. unfold Py.slice in *. cbv zeta. split.
  - rewrite skipn_firstn_comm, skipn_skipn, firstn_firstn.
    replace (Nat.min pos 50 + (pos - 50)) with pos by lia.
    replace (Nat.min (Nat.min pos 50 + length pat - Nat.min pos 50)
                     (Nat.min (length data) (pos + length pat + 50)
                      - (pos - 50) - Nat.min pos 50))
      with (pos + length pat - pos) by lia.
    exact Hocc.
  - rewrite length_firstn, length_skipn. lia.
Qed.

Lemma unencodable_term_raises (data : bytes) (terms : list str) (t : str)
      (results : list occurrence) :
  In t terms ->
  (forall p, encode_utf8 t <> Ok p) ->
  exists codec position,
    search_terms_loop data results terms = Raise (UnicodeEncodeError codec position).
Proof.
  intros Hin Hbad. revert results.
  induction terms as [|t0 terms IH]; intro results; [destruct Hin|].
  simpl. destruct (search_term_cases data results t0)
    as [[p [w [Hp [Hw Ht]]]]|[codec [position [Ht _]]]]; rewrite Ht; simpl.
  - destruct Hin as [->|Hin]; [now destruct (Hbad p)|]. now apply IH.
  - now exists codec, position.
Qed.

Lemma ascii_char_utf8 (c : N) :
  (c < 128)%N -> utf8_char c = Some [Py.byte_of_N c].
Proof.
  intro H. unfold utf8_char. now rewrite (proj2 (N.ltb_lt c 128) H).
Qed.

Lemma ascii_char_utf16le (c : N) :
  (c < 128)%N -> utf16le_char c = Some [Py.byte_of_N c; x00].
Proof.
  intro H. unfold utf16le_char, is_surrogate, unit_le.
  rewrite (proj2 (N.ltb_lt c 0x10000)) by lia.
  rewrite (proj2 (N.leb_gt 0xD800 c)) by lia. simpl.
  rewrite N.mod_small, N.div_small by lia. reflexivity.
Qed.

Lemma ascii_encode (t : str) :
  Forall (fun c => (c < 128)%N) t ->
  encode_utf8 t = Ok (map Py.byte_of_N t)
  /\ encode_utf16le t = Ok (flat_map (fun c => [Py.byte_of_N c; x00]) t).
Proof.
  intro H. unfold encode_utf8, encode_utf16le.
  assert (Hgen : forall p8 p16,
             encode_with utf8_char "utf-8" p8 t = Ok (map Py.byte_of_N t)
             /\ encode_with utf16le_char "utf-16-le" p16 t
                = Ok (flat_map (fun c => [Py.byte_of_N c; x00]) t)).
  { induction H as [|c t Hc Ht IH]; intros p8 p16; simpl; [now split|].
    rewrite (ascii_char_utf8 Hc), (ascii_char_utf16le Hc).
    destruct (IH (S p8) (S p16)) as [-> ->]. now split. }
  apply Hgen.
Qed.

End MarkerSearchMore.

(** X1. The entries of a search that printed no diagnostic. The file was
    read, and an entry is in the returned list exactly when its term is one
    of the search terms, the encoding of the term its tag names occurs in the
    file at its position, and its context is the slice from 50 bytes before
    the position to 50 bytes after the match, cut at the ends of the file. *)
Theorem X1_search_entries (file : read_result) (terms : list str)
        (results : list occurrence)
        (H : find_marker_strings file terms = Ok ([], results)) :
  exists data,
    file = Loaded data
    /\ forall o,
      In o results
      <-> In (term o) terms
          /\ exists pat,
            encode_as (encoding o) (term o) = Ok pat
            /\ occurs_at data pat (position o)
            /\ context o
               = Py.slice data (position o - 50)
                          (Nat.min (length data) (position o + length pat + 50)).
Proof.
  apply find_marker_strings_silent in H. destruct H as [data [-> Hloop]].
  exists data. split; [reflexivity|]. intro o.
  rewrite (in_search_terms_loop data terms Hloop o).
  split; intros [Hin [pat [Hpat [Hocc Hctx]]]]; (split; [exact Hin|]);
    exists pat; (split; [exact Hpat|]); (split; [exact Hocc|]);
    now apply occurrence_at_context.
Qed.

(** The search of [b"aaa"] for ["aa"]. *)
Lemma X1_search_entries_witness :
  exists data,
    Loaded ["a"; "a"; "a"]%byte = Loaded data
    /\ forall o,
      In o [mkOccurrence [97; 97]%N UTF8 0 ["a"; "a"; "a"]%byte;
            mkOccurrence [97; 97]%N UTF8 1 ["a"; "a"; "a"]%byte]
      <-> In (term o) [[97; 97]%N]
          /\ exists pat,
            encode_as (encoding o) (term o) = Ok pat
            /\ occurs_at data pat (position o)
            /\ context o
               = Py.slice data (position o - 50)
                          (Nat.min (length data) (position o + length pat + 50)).
Proof.
  apply (@X1_search_entries (Loaded ["a"; "a"; "a"]%byte) [[97; 97]%N]).
  reflexivity.
Defined.

(** X2. Two searches of the same file that both print no diagnostic
    compose: the search for the terms of the first followed by the terms of
    the second returns the entries of the first followed by the entries of
    the second. *)
Theorem X2_search_concatenates (file : read_result) (terms1 terms2 : list str)
        (results1 results2 : list occurrence)
        (H1 : find_marker_strings file terms1 = Ok ([], results1))
        (H2 : find_marker_strings file terms2 = Ok ([], results2)) :
  find_marker_strings file (terms1 ++ terms2) = Ok ([], results1 ++ results2).
Proof.
  apply find_marker_strings_silent in H1. destruct H1 as [data [-> H1]].
  apply find_marker_strings_silent in H2. destruct H2 as [data' [[= <-] H2]].
  apply find_marker_strings_silent. exists data. split; [reflexivity|].
  rewrite search_terms_loop_app, H1. simpl.
  now rewrite search_terms_loop_acc, H2.
Qed.

(** ["a"] then ["b"] in [b"ab"]. *)
Lemma X2_search_concatenates_witness :
  find_marker_strings (Loaded ["a"; "b"]%byte) ([[97%N]] ++ [[98%N]])
  = Ok ([], [mkOccurrence [97%N] UTF8 0 ["a"; "b"]%byte]
            ++ [mkOccurrence [98%N] UTF8 1 ["a"; "b"]%byte]).
Proof.
  apply (@X2_search_concatenates (Loaded ["a"; "b"]%byte) [[97%N]] [[98%N]]);
    reflexivity.
Defined.

(** X3. The context of every entry of a search that printed no diagnostic
    holds the bytes searched for, at offset [min(position, 50)], and at most
    100 bytes more than them. *)
Theorem X3_context_window (file : read_result) (terms : list str)
        (results : list occurrence) (o : occurrence)
        (H : find_marker_strings file terms = Ok ([], results))
        (Ho : In o results) :
  exists pat,
    encode_as (encoding o) (term o) = Ok pat
    /\ Py.slice (context o) (Nat.min (position o) 50)
                (Nat.min (position o) 50 + length pat) = pat
    /\ length pat <= length (context o) <= length pat + 100.
Proof.
  apply find_marker_strings_silent in H. destruct H as [data [-> Hloop]].
  apply (in_search_terms_loop data terms Hloop o) in Ho.
  destruct Ho as [_ [pat [Hpat [Hocc Hctx]]]].
  exists pat. split; [exact Hpat|].
  apply occurrence_at_context in Hctx. rewrite Hctx.
  destruct (context_holds_match Hocc) as [Hin Hlen].
  split; [exact Hin|]. rewrite Hlen. lia.
Qed.

(** The entry at position 1 of the search of [b"aaa"] for ["aa"]. *)
Lemma X3_context_window_witness :
  exists pat,
    encode_as UTF8 [97; 97]%N = Ok pat
    /\ Py.slice ["a"; "a"; "a"]%byte (Nat.min 1 50) (Nat.min 1 50 + length pat) = pat
    /\ length pat <= 3 <= length pat + 100.
Proof.
  apply (@X3_context_window (Loaded ["a"; "a"; "a"]%byte) [[97; 97]%N]
           [mkOccurrence [97; 97]%N UTF8 0 ["a"; "a"; "a"]%byte;
            mkOccurrence [97; 97]%N UTF8 1 ["a"; "a"; "a"]%byte]
           (mkOccurrence [97; 97]%N UTF8 1 ["a"; "a"; "a"]%byte)).
  - reflexivity.
  - right. left. reflexivity.
Defined.

(** X4. One term that cannot be encoded empties the whole result: when any
    of the search terms has no UTF-8 encoding, the search of a file that was
    read prints the codec's error and returns the empty list, whatever the
    other terms found. *)
Theorem X4_unencodable_term_empties_result (data : bytes) (terms : list str)
        (t : str) (Hin : In t terms)
        (Hbad : forall p, Codec.encode_utf8 t <> Ok p) :
  exists codec position,
    find_marker_strings (Loaded data) terms
    = Ok ([ErrorReadingFile (UnicodeEncodeError codec position)], []).
Proof.
  destruct (unencodable_term_raises data terms t [] Hin Hbad)
    as [codec [position Hraise]].
  exists codec, position. unfold find_marker_strings. simpl.
  now rewrite Hraise.
Qed.

(** ["a"] occurs in [b"a"], and the lone surrogate after it discards the
    hit. *)
Lemma X4_unencodable_term_empties_result_witness :
  exists codec position,
    find_marker_strings (Loaded ["a"%byte]) [[97%N]; [0xD800%N]]
    = Ok ([ErrorReadingFile (UnicodeEncodeError codec position)], []).
Proof.
  apply (@X4_unencodable_term_empties_result ["a"%byte] [[97%N]; [0xD800%N]]
           [0xD800%N]).
  - right. left. reflexivity.
  - intros p Hp. discriminate Hp.
Defined.

Section AsciiTerms.

Import MarkerSearch Codec.

Lemma ascii_terms_search (data : bytes) (terms : list str)
      (results : list occurrence) :
  Forall (Forall (fun c => (c < 128)%N)) terms ->
  exists found, search_terms_loop data results terms = Ok found.
Proof.
  intro H. revert results.
  induction H as [|t terms Ht Hterms IH]; intro results; simpl.
  - now exists results.
  - destruct (ascii_encode Ht) as [H8 H16].
    rewrite (search_term_hits data results t H8 H16). simpl. apply IH.
Qed.

End AsciiTerms.

(** X5. Terms of ASCII characters always encode: the UTF-8 bytes of such a
    term are its characters, its UTF-16LE bytes are its characters each
    followed by a zero byte, and the search of a file that was read for such
    terms prints no diagnostic. *)
Theorem X5_ascii_terms_encode (data : bytes) (terms : list str)
        (H : Forall (Forall (fun c => (c < 128)%N)) terms) :
  Forall (fun t =>
            Codec.encode_utf8 t = Ok (map Py.byte_of_N t)
            /\ Codec.encode_utf16le t
               = Ok (flat_map (fun c => [Py.byte_of_N c; x00]) t)) terms
  /\ exists results, find_marker_strings (Loaded data) terms = Ok ([], results).
Proof.
  split.
  - eapply Forall_impl; [|exact H]. intros t Ht. now apply ascii_encode.
  - destruct (ascii_terms_search data [] H) as [found Hfound].
    exists found. unfold find_marker_strings. simpl. now rewrite Hfound.
Qed.

(** The four marker names of [analyze_ptx_file]. *)
Lemma X5_ascii_terms_encode_witness :
  Forall (fun t =>
            Codec.encode_utf8 t = Ok (map Py.byte_of_N t)
            /\ Codec.encode_utf16le t
               = Ok (flat_map (fun c => [Py.byte_of_N c; x00]) t))
         PtxReport.marker_terms
  /\ exists results,
      find_marker_strings (Loaded []) PtxReport.marker_terms = Ok ([], results).
Proof.
  apply (@X5_ascii_terms_encode [] PtxReport.marker_terms).
  repeat constructor.
Defined.

(** ** [analyze_ptx_file] *)

Section PtxReportFacts.

Import PtxReport.

Lemma marker_terms_ascii :
  Forall (Forall (fun c => (c < 128)%N)) marker_terms.
Proof. repeat constructor. Qed.

Lemma in_result_lines_flat (results : list occurrence) :
  ~ In NoMarkerNamesFound (flat_map printed_result results)
  /\ forall l, ~ In (SearchPrinted l) (flat_map printed_result results).
Proof.
  split; [|intro l]; rewrite in_flat_map; intros [r [_ Hr]];
    unfold printed_result in Hr; simpl in Hr;
    repeat (destruct Hr as [Hr|Hr]; [discriminate|]); exact Hr.
Qed.

Lemma not_found_line (results : list occurrence) :
  In NoMarkerNamesFound (printed_results results) <-> results = [].
Proof.
  destruct results as [|r results]; simpl.
  - split; [reflexivity | now left].
  - split; [|discriminate]. intros [H|H]; [discriminate|].
    exfalso. revert H. apply (in_result_lines_flat (r :: results)).
Qed.

Lemma no_search_line (results : list occurrence) (l : marker_line) :
  ~ In (SearchPrinted l) (printed_results results).
Proof.
  destruct results as [|r results]; simpl.
  - intros [H|[]]. discriminate.
  - intros [H|H]; [discriminate|].
    revert H. apply (in_result_lines_flat (r :: results)).
Qed.

Lemma no_size_line_marker (getsize : option nat) (l : ptx_line) :
  In l (size_lines getsize) -> exists size, l = FileSizeBytes size.
Proof.
  destruct getsize as [size|]; simpl; [|intros []].
  intros [<-|[]]. now exists size.
Qed.

(** On a stdout that writes every line, every [print] adds its line. *)
Lemma for_each_reliable {line A} (f : A -> io line unit) (g : A -> list line)
      (l : list A) :
  (forall a, f a = (g a, Ok tt)) ->
  IO.for_each f l = (flat_map g l, Ok tt).
Proof.
  intro H. induction l as [|a l IH]; simpl; [reflexivity|].
  unfold IO.bind. rewrite H, IH. reflexivity.
Qed.

Lemma print_all_reliable {line} (ls : list line) :
  IO.print_all reliable ls = (ls, Ok tt).
Proof.
  unfold IO.print_all.
  rewrite (@for_each_reliable _ _ (IO.print reliable) (fun l => [l]))
    by reflexivity.
  f_equal. induction ls as [|l ls IH]; simpl; [reflexivity | now rewrite IH].
Qed.

Lemma results_lines_reliable (results : list occurrence) :
  results_lines reliable results = (printed_results results, Ok tt).
Proof.
  destruct results as [|r results]; [reflexivity|].
  unfold results_lines, printed_results, IO.bind.
  rewrite (@for_each_reliable _ _ (result_lines reliable) printed_result)
    by reflexivity.
  reflexivity.
Qed.

Lemma size_block_reliable (getsize : option nat) :
  size_block reliable getsize = (size_lines getsize, Ok tt).
Proof. now destruct getsize. Qed.

(** The two models of [find_marker_strings] agree on a stdout that writes
    every line. *)
Lemma find_marker_strings_on_reliable (file : read_result) (terms : list str)
      (out : list marker_line) (results : list occurrence) :
  find_marker_strings file terms = Ok (out, results) ->
  find_marker_strings_on reliable file terms = (out, Ok results).
Proof.
  unfold find_marker_strings, find_marker_strings_on.
  destruct file as [data|msg]; simpl.
  - destruct (MarkerSearch.search_terms_loop data [] terms) as [r|e|]; simpl.
    + intro H. inversion H. reflexivity.
    + intro H. inversion H. reflexivity.
    + discriminate.
  - intro H. inversion H. reflexivity.
Qed.

(** [analyze_ptx_file] in terms of [find_marker_strings]. *)
Lemma analyze_ptx_file_reliable (file : read_result) (getsize : option nat) :
  analyze_ptx_file file getsize
  = (found <- find_marker_strings file marker_terms ;;
     Ok ([Analyzing]
         ++ map SearchPrinted (fst found)
         ++ printed_results (snd found)
         ++ size_lines getsize)).
Proof.
  destruct (find_marker_strings_returns file marker_terms) as [out [results H]].
  rewrite H. apply find_marker_strings_on_reliable in H.
  unfold analyze_ptx_file, analyze_ptx_file_on.
  change (fun l : marker_line => @reliable ptx_line (SearchPrinted l))
    with (@reliable marker_line).
  rewrite H.
  pose proof (results_lines_reliable results) as Hr.
  pose proof (size_block_reliable getsize) as Hs.
  unfold IO.bind, IO.map_lines. cbn [fst snd IO.print].
  rewrite Hr, Hs. reflexivity.
Qed.

End PtxReportFacts.

(** X6. What [analyze_ptx_file] says of a file. For a file that was read it
    prints no diagnostic, and it prints "No marker names found" exactly when
    none of the four marker names occurs in the file, neither in UTF-8 nor in
    UTF-16LE. For a file that could not be read it prints the diagnostic
    and then "No marker names found" as well. *)
Theorem X6_no_marker_names_found :
  (forall data getsize,
      exists out,
        analyze_ptx_file (Loaded data) getsize = Ok out
        /\ (forall l, ~ In (SearchPrinted l) out)
        /\ (In NoMarkerNamesFound out
            <-> forall t e pat k,
                In t PtxReport.marker_terms ->
                encode_as e t = Ok pat ->
                ~ occurs_at data pat k))
  /\ (forall msg getsize,
         analyze_ptx_file (IOFailure msg) getsize
         = Ok ([Analyzing;
                SearchPrinted (ErrorReadingFile (OSError msg));
                NoMarkerNamesFound]
               ++ PtxReport.size_lines getsize)).
Proof.
  split; [|intros msg getsize; now rewrite analyze_ptx_file_reliable].
  intros data getsize.
  destruct (ascii_terms_search data [] marker_terms_ascii) as [found Hfound].
  assert (Hfind : find_marker_strings (Loaded data) PtxReport.marker_terms
                  = Ok ([], found)).
  { apply find_marker_strings_silent. now exists data. }
  rewrite analyze_ptx_file_reliable, Hfind. simpl.
  eexists. split; [reflexivity|]. split.
  - intros l [H|H]; [discriminate|]. apply in_app_or in H. destruct H as [H|H].
    + revert H. apply no_search_line.
    + apply no_size_line_marker in H. destruct H as [size H]. discriminate.
  - pose proof (in_search_terms_loop data PtxReport.marker_terms Hfound) as Hin.
    split.
    + intros [H|H]; [discriminate|]. apply in_app_or in H.
      destruct H as [H|H];
        [|apply no_size_line_marker in H; destruct H as [size H]; discriminate].
      apply not_found_line in H. subst found.
      intros t e pat k Ht Hpat Hocc.
      apply (proj2 (Hin (occurrence_at data pat t e k))).
      split; [exact Ht|]. exists pat.
      split; [exact Hpat|]. split; [exact Hocc | reflexivity].
    + intro Hnone. right. apply in_or_app. left. apply not_found_line.
      destruct found as [|o found]; [reflexivity|]. exfalso.
      destruct (proj1 (Hin o) (or_introl eq_refl)) as [Ht [pat [Hpat [Hocc _]]]].
      exact (Hnone _ _ _ _ Ht Hpat Hocc).
Qed.

(** ** UTF-8: decoding what was encoded *)

Section RoundTrip.
Import Codec Utf8.
Local Open Scope N_scope.

Lemma to_N_byte_of_N (n : N) : n < 256 -> Byte.to_N (Py.byte_of_N n) = n.
Proof.
  intro H. unfold Py.byte_of_N. rewrite N.mod_small by exact H.
  destruct (Byte.of_N n) as [b|] eqn:E.
  - now apply Byte.to_of_N.
  - apply Byte.of_N_None_iff in E. lia.
Qed.

Lemma decode_char (c : N) (rest : bytes) (q : nat) :
  match utf8_char c with
  | Some bs =>
      decode_from q (bs ++ rest)
      = (r <- decode_from (q + length bs) rest ;; Ok (c :: r))
  | None => True
  end.
Proof.
  unfold utf8_char.
  destruct (c <? 0x80) eqn:E1; [|destruct (c <? 0x800) eqn:E2;
    [|destruct (c <? 0x10000) eqn:E3;
      [destruct (is_surrogate c) eqn:Es|destruct (c <? 0x110000) eqn:E4]]];
    try exact I;
    repeat match goal with
           | H : (_ <? _) = true |- _ => apply N.ltb_lt in H
           | H : (_ <? _) = false |- _ => apply N.ltb_ge in H
           end.
  - cbn [decode_from app length]. cbv zeta.
    rewrite to_N_byte_of_N by nlia. decide_tests. reflexivity.
  - cbn [decode_from app length]. cbv zeta. unfold cont, low6, between.
    rewrite !to_N_byte_of_N by nlia. decide_tests. cbn [andb].
    replace ((192 + c / 64 - 192) * 64 + (128 + c mod 64 - 128)) with c by nlia.
    repeat (split_eq; decide_tests); reflexivity.
  - assert (Hs : c < 0xD800 \/ 0xDFFF < c).
    { unfold is_surrogate in Es. apply andb_false_iff in Es.
      destruct Es as [Es|Es]; [apply N.leb_gt in Es | apply N.leb_gt in Es]; lia. }
    cbn [decode_from app length]. cbv zeta.
    unfold cont, low6, between, second_ok, between.
    rewrite !to_N_byte_of_N by nlia. decide_tests. cbn [andb].
    replace ((224 + c / 4096 - 224) * 4096 + (128 + (c / 64) mod 64 - 128) * 64
             + (128 + c mod 64 - 128)) with c by nlia.
    repeat (split_eq; decide_tests); reflexivity.
  - cbn [decode_from app length]. cbv zeta.
    unfold cont, low6, between, second_ok, between.
    rewrite !to_N_byte_of_N by nlia. decide_tests. cbn [andb].
    replace ((240 + c / 262144 - 240) * 262144
             + (128 + (c / 4096) mod 64 - 128) * 4096
             + (128 + (c / 64) mod 64 - 128) * 64
             + (128 + c mod 64 - 128)) with c by nlia.
    repeat (split_eq; decide_tests); reflexivity.
Qed.

Lemma decode_encoded (codec : string) (s : str) (p q : nat) (b : bytes) :
  encode_with utf8_char codec p s = Ok b -> decode_from q b = Ok s.
Proof.
  revert p q b. induction s as [|c s IH]; intros p q b; simpl.
  - now intros [= <-].
  - pose proof (decode_char c) as Hc.
    destruct (utf8_char c) as [bs|]; [|discriminate].
    destruct (encode_with utf8_char codec (S p) s) as [rest| |] eqn:E; simpl;
      try discriminate.
    intros [= <-]. rewrite Hc, (IH (S p) (q + length bs)%nat rest E).
    reflexivity.
Qed.

End RoundTrip.

(** X7. UTF-8 round trip. The bytes [encode('utf-8')] gives for a term
    decode, under the strict [decode('utf-8')], to the term itself. *)
Theorem X7_utf8_round_trip (s : str) (b : bytes)
        (H : Codec.encode_utf8 s = Ok b) :
  Utf8.decode b = Ok s.
Proof. exact (decode_encoded "utf-8" s 0 0 H). Qed.

(** One character of each length: "A", U+00E9, U+20AC and U+1F600. *)
Lemma X7_utf8_round_trip_witness :
  Utf8.decode [x41; xc3; xa9; xe2; x82; xac; xf0; x9f; x98; x80]
  = Ok [0x41; 0xE9; 0x20AC; 0x1F600]%N.
Proof.
  apply (@X7_utf8_round_trip [0x41; 0xE9; 0x20AC; 0x1F600]%N). reflexivity.
Defined.

(** ** The string scan: what is reported *)

Section ScanMeaning.

Import StringScan.

Lemma null_not_printable (b : byte) :
  (Byte.to_N b =? 0)%N = true -> printable b = false.
Proof.
  intro H. apply N.eqb_eq in H. unfold printable. rewrite H. reflexivity.
Qed.

(** The two flushing branches are one: a byte either extends the run or
    flushes it. *)
Lemma step_by_printable (strings : list (nat * str)) (cur : bytes)
      (i : nat) (b : byte) :
  step (strings, cur) (i, b)
  = if printable b then (strings, cur ++ [b]) else (flush i cur strings, []).
Proof.
  unfold step. destruct (Byte.to_N b =? 0)%N eqn:E.
  - now rewrite (null_not_printable b E).
  - now destruct (printable b).
Qed.

Lemma snoc_split {A} (l m post : list A) (b t : A) :
  l ++ [b] = m ++ t :: post ->
  (post = [] /\ l = m /\ b = t)
  \/ exists post', post = post' ++ [b] /\ l = m ++ t :: post'.
Proof.
  intro H. destruct post as [|p0 post0].
  - left. apply app_inj_tail in H. tauto.
  - right. destruct (@exists_last _ (p0 :: post0)) as [post' [x Hx]];
      [discriminate|].
    rewrite Hx in *. exists post'.
    replace (m ++ t :: post' ++ [x]) with ((m ++ t :: post') ++ [x]) in H
      by now rewrite <- app_assoc.
    apply app_inj_tail in H. destruct H as [-> ->]. now split.
Qed.

(** A printable suffix that nothing printable precedes is determined by
    the list. *)
Lemma open_run_unique (pre1 pre2 r1 r2 : bytes) :
  pre1 ++ r1 = pre2 ++ r2 ->
  forallb printable r1 = true -> forallb printable r2 = true ->
  (forall pre' b, pre1 = pre' ++ [b] -> printable b = false) ->
  (forall pre' b, pre2 = pre' ++ [b] -> printable b = false) ->
  pre1 = pre2 /\ r1 = r2.
Proof.
  revert r2. induction r1 as [|c r1 IH] using rev_ind; intros r2 Heq H1 H2 Hp1 Hp2.
  - destruct r2 as [|c2 r2 _] using rev_ind.
    + rewrite !app_nil_r in Heq. now split.
    + exfalso. rewrite app_nil_r, app_assoc in Heq.
      rewrite forallb_app in H2. simpl in H2.
      apply andb_true_iff in H2. destruct H2 as [_ H2].
      rewrite (Hp1 _ _ Heq) in H2. discriminate.
  - destruct r2 as [|c2 r2 _] using rev_ind.
    + exfalso. rewrite app_nil_r, app_assoc in Heq. symmetry in Heq.
      rewrite forallb_app in H1. simpl in H1.
      apply andb_true_iff in H1. destruct H1 as [_ H1].
      rewrite (Hp2 _ _ Heq) in H1. discriminate.
    + rewrite !app_assoc in Heq. apply app_inj_tail in Heq.
      destruct Heq as [Heq ->].
      rewrite forallb_app in H1, H2.
      apply andb_true_iff in H1, H2.
      destruct (IH r2 Heq (proj1 H1) (proj1 H2) Hp1 Hp2) as [-> ->].
      now split.
Qed.

(** The run in progress is the longest printable suffix of what was
    read. *)
Lemma scan_open_run (data : bytes) : open_run data (snd (scan data)).
Proof.
  induction data as [|b data IH] using rev_ind.
  - exists []. repeat split. intros [|? ?] b0 H; discriminate H.
  - rewrite scan_snoc. destruct (scan data) as [strs cur]. simpl in IH.
    rewrite step_by_printable. destruct IH as [pre [Hdata [Hcur Hpre]]].
    destruct (printable b) eqn:Eb; simpl.
    + exists pre. rewrite Hdata, <- app_assoc. repeat split; [|exact Hpre].
      rewrite forallb_app, Hcur. simpl. now rewrite Eb.
    + exists (data ++ [b]). rewrite app_nil_r. repeat split.
      intros pre' b' H. apply app_inj_tail in H. destruct H as [_ <-]. exact Eb.
Qed.

Lemma terminated_run_snoc_printable (data : bytes) (b : byte) (pos : nat)
      (run : bytes) :
  printable b = true ->
  terminated_run (data ++ [b]) pos run <-> terminated_run data pos run.
Proof.
  intro Eb. split.
  - intros [pre [t [post [Hdata [Hpos [Hrun [Ht Hpre]]]]]]].
    rewrite app_assoc in Hdata. apply snoc_split in Hdata.
    destruct Hdata as [[_ [_ <-]]|[post' [-> Hdata]]]; [congruence|].
    exists pre, t, post'. rewrite <- app_assoc in Hdata. now repeat split.
  - intros [pre [t [post [Hdata [Hpos [Hrun [Ht Hpre]]]]]]].
    exists pre, t, (post ++ [b]). rewrite Hdata, <- !app_assoc.
    now repeat split.
Qed.

Lemma terminated_run_snoc_terminator (data cur : bytes) (b : byte) (pos : nat)
      (run : bytes) :
  printable b = false ->
  open_run data cur ->
  terminated_run (data ++ [b]) pos run
  <-> terminated_run data pos run
      \/ (pos = length data - length cur /\ run = cur).
Proof.
  intros Eb [pre0 [Hdata0 [Hcur Hpre0]]]. split.
  - intros [pre [t [post [Hdata [Hpos [Hrun [Ht Hpre]]]]]]].
    rewrite app_assoc in Hdata. apply snoc_split in Hdata.
    destruct Hdata as [[_ [Hdata _]]|[post' [-> Hdata]]].
    + right. rewrite Hdata0 in Hdata.
      destruct (@open_run_unique _ _ _ _ Hdata Hcur Hrun Hpre0 Hpre) as [-> ->].
      split; [|reflexivity]. rewrite Hdata0, length_app. lia.
    + left. exists pre, t, post'. rewrite <- app_assoc in Hdata. now repeat split.
  - intros [[pre [t [post [Hdata [Hpos [Hrun [Ht Hpre]]]]]]]|[-> ->]].
    + exists pre, t, (post ++ [b]). rewrite Hdata, <- !app_assoc.
      now repeat split.
    + exists pre0, b, []. rewrite Hdata0, <- app_assoc.
      repeat split; try assumption. rewrite length_app. lia.
Qed.

(** What [strings] holds after any number of bytes. *)
Lemma in_scan (data : bytes) (pos : nat) (s : str) :
  In (pos, s) (fst (scan data))
  <-> exists run,
      terminated_run data pos run /\ 2 < length run /\ s = map Byte.to_N run.
Proof.
  revert pos s. induction data as [|b data IH] using rev_ind; intros pos s.
  - simpl. split; [intros []|].
    intros [run [[pre [t [post [H _]]]] _]].
    destruct pre; [destruct run|]; discriminate H.
  - pose proof (scan_open_run data) as Hopen.
    pose proof (current_string_printable data) as Hcur.
    rewrite scan_snoc. destruct (scan data) as [strs cur].
    rewrite step_by_printable. cbn [fst snd] in *.
    destruct (printable b) eqn:Eb; cbn [fst snd].
    + rewrite IH. split; intros [run [Hrun H]]; exists run; (split; [|exact H]);
        now apply (@terminated_run_snoc_printable data b pos run Eb).
    + rewrite (flush_printable _ _ _ Hcur). split.
      * intro Hin.
        assert (Hcases : In (pos, s) strs
                         \/ (2 < length cur
                             /\ (pos, s) = (length data - length cur, map Byte.to_N cur))).
        { destruct (2 <? length cur) eqn:E2; [|now left].
          apply in_app_or in Hin. destruct Hin as [Hin|[Hin|[]]]; [now left|].
          right. apply Nat.ltb_lt in E2. now split. }
        destruct Hcases as [Hin'|[H2 [= -> ->]]].
        -- apply IH in Hin'. destruct Hin' as [run [Hrun H]].
           exists run. split; [|exact H].
           apply (@terminated_run_snoc_terminator data cur b pos run Eb Hopen). now left.
        -- exists cur. split; [|now split].
           apply (@terminated_run_snoc_terminator data cur b _ cur Eb Hopen). now right.
      * intros [run [Hrun [H2 ->]]].
        apply (@terminated_run_snoc_terminator data cur b pos run Eb Hopen) in Hrun.
        destruct Hrun as [Hrun|[-> ->]].
        -- assert (Hin : In (pos, map Byte.to_N run) strs)
             by (apply IH; now exists run).
           destruct (2 <? length cur); [apply in_or_app; now left | exact Hin].
        -- rewrite (proj2 (Nat.ltb_lt 2 (length cur)) H2).
           apply in_or_app. right. now left.
Qed.


Lemma terminated_run_slice (data : bytes) (pos : nat) (run : bytes) :
  terminated_run data pos run ->
  Py.slice data pos (pos + length run) = run
  /\ pos + length run < length data.
Proof.
  intros [pre [t [post [-> [<- _]]]]]. unfold Py.slice. split.
  - rewrite skipn_app, skipn_all, Nat.sub_diag. simpl.
    replace (length pre + length run - length pre) with (length run) by lia.
    rewrite firstn_app, firstn_all, Nat.sub_diag. simpl. now rewrite app_nil_r.
  - rewrite !length_app. simpl. lia.
Qed.

Lemma open_run_length (data cur : bytes) :
  open_run data cur -> length cur <= length data.
Proof. intros [pre [-> _]]. rewrite length_app. lia. Qed.

Lemma StronglySorted_snoc {A} (R : A -> A -> Prop) (l : list A) (a : A) :
  StronglySorted R l -> Forall (fun x => R x a) l -> StronglySorted R (l ++ [a]).
Proof.
  induction 1 as [|x l Hl IH Hx]; intro Hall; simpl.
  - constructor; constructor.
  - apply Forall_cons_iff in Hall. destruct Hall as [Hxa Hall].
    constructor; [now apply IH|].
    apply Forall_app. split; [exact Hx | now constructor].
Qed.

(** The entries lie one after the other, all of them before the run in
    progress. *)
Lemma scan_layout (data : bytes) :
  StronglySorted entry_before (fst (scan data))
  /\ Forall (fun e => fst e + length (snd e) + length (snd (scan data)) < length data)
            (fst (scan data)).
Proof.
  induction data as [|b data IH] using rev_ind.
  - split; constructor.
  - pose proof (open_run_length (scan_open_run data)) as Hlen.
    pose proof (current_string_printable data) as Hcur.
    rewrite scan_snoc. destruct (scan data) as [strs cur].
    rewrite step_by_printable. cbn [fst snd] in *. destruct IH as [Hsorted Hall].
    rewrite length_app. simpl length.
    destruct (printable b) eqn:Eb; cbn [fst snd].
    + split; [exact Hsorted|]. rewrite length_app. simpl length.
      eapply Forall_impl; [|exact Hall]. simpl. intros e He. lia.
    + rewrite (flush_printable _ _ _ Hcur).
      assert (Hold : Forall (fun e => fst e + length (snd e) + 0 < length data + 1) strs).
      { eapply Forall_impl; [|exact Hall]. simpl. intros e He. lia. }
      destruct (2 <? length cur); [|now split].
      split.
      * apply StronglySorted_snoc; [exact Hsorted|].
        eapply Forall_impl; [|exact Hall]. unfold entry_before. simpl.
        intros e He. unfold str in *. lia.
      * apply Forall_app. split; [exact Hold|]. constructor; [|constructor].
        simpl. rewrite length_map. lia.
Qed.

Lemma enumerate_from_app {A} (l1 l2 : list A) (s : nat) :
  combine (seq s (length (l1 ++ l2))) (l1 ++ l2)
  = combine (seq s (length l1)) l1
    ++ combine (seq (s + length l1) (length l2)) l2.
Proof.
  revert s. induction l1 as [|a l1 IH]; intro s; simpl.
  - now rewrite Nat.add_0_r.
  - rewrite IH. now rewrite Nat.add_succ_r.
Qed.

(** A scan that starts at offset [s] with no run in progress reports what
    the scan of the rest reports, moved by [s]. *)
Lemma scan_from (l : bytes) (s : nat) (strs : list (nat * str)) :
  fold_left step (combine (seq s (length l)) l) (strs, [])
  = (strs ++ map (shift_entry s) (fst (scan l)), snd (scan l)).
Proof.
  induction l as [|b l IH] using rev_ind.
  - simpl. now rewrite app_nil_r.
  - pose proof (open_run_length (scan_open_run l)) as Hlen.
    pose proof (current_string_printable l) as Hcur.
    rewrite enumerate_from_snoc, fold_left_app, IH, scan_snoc. cbn [fold_left].
    destruct (scan l) as [found cur]. cbn [fst snd] in *.
    rewrite !step_by_printable. destruct (printable b); [reflexivity|].
    rewrite !(flush_printable _ _ _ Hcur).
    destruct (2 <? length cur); cbn [fst snd]; [|reflexivity].
    rewrite map_app, app_assoc. simpl. unfold shift_entry at 2. simpl.
    replace (s + length l - length cur) with (s + (length l - length cur)) by lia.
    reflexivity.
Qed.

Lemma scan_terminator (data : bytes) (t : byte) :
  printable t = false -> snd (scan (data ++ [t])) = [].
Proof.
  intro Et. rewrite scan_snoc. destruct (scan data) as [strs cur].
  rewrite step_by_printable, Et. reflexivity.
Qed.

Lemma strings_chunks (data1 data2 : bytes) (t : byte) :
  printable t = false ->
  strings (data1 ++ t :: data2)
  = strings (data1 ++ [t]) ++ map (shift_entry (S (length data1))) (strings data2).
Proof.
  intro Et. unfold strings at 1. unfold scan, Py.enumerate.
  change (data1 ++ t :: data2) with (data1 ++ [t] ++ data2).
  rewrite app_assoc, enumerate_from_app, fold_left_app.
  change (fold_left step (combine (seq 0 (length (data1 ++ [t]))) (data1 ++ [t])) ([], []))
    with (scan (data1 ++ [t])).
  pose proof (@scan_terminator data1 t Et) as Hnil.
  unfold strings. destruct (scan (data1 ++ [t])) as [strs cur].
  simpl in Hnil. subst cur. rewrite scan_from. simpl fst.
  rewrite length_app. simpl. now replace (length data1 + 1) with (S (length data1)) by lia.
Qed.

End ScanMeaning.

(** X8. What the string scan reports. [(pos, s)] is in [strings] exactly
    when the buffer holds, at offset [pos], a run of more than 2 printable
    bytes whose characters are [s], with no printable byte before it and a
    byte that is not printable after it. *)
Theorem X8_strings_are_terminated_runs (data : bytes) (pos : nat) (s : str) :
  In (pos, s) (StringScan.strings data)
  <-> exists run,
      terminated_run data pos run /\ 2 < length run /\ s = map Byte.to_N run.
Proof. apply in_scan. Qed.

(** X9. The layout of the reported strings. The entries come in ascending
    order of offset, each one ending at least one byte before the next
    begins; every entry has more than 2 characters, ends before the end of
    the buffer, and its characters are the bytes of the buffer from its
    offset on. *)
Theorem X9_strings_layout (data : bytes) :
  StronglySorted entry_before (StringScan.strings data)
  /\ Forall (fun e =>
               2 < length (snd e)
               /\ fst e + length (snd e) < length data
               /\ snd e = map Byte.to_N (Py.slice data (fst e) (fst e + length (snd e))))
            (StringScan.strings data).
Proof.
  split; [apply scan_layout|].
  apply Forall_forall. intros [pos s] Hin. apply in_scan in Hin.
  destruct Hin as [run [Hrun [H2 ->]]].
  destruct (terminated_run_slice Hrun) as [Hslice Hend].
  simpl. rewrite length_map, Hslice. now repeat split.
Qed.

(** X10. The run in progress. After any number of bytes [current_string]
    is the longest suffix of the bytes read that is made of printable bytes:
    it is printable, and the byte before it, if there is one, is not. *)
Theorem X10_current_string_is_open_run (data : bytes) :
  open_run data (snd (StringScan.scan data))
  /\ length (snd (StringScan.scan data)) <= length data.
Proof.
  split; [apply scan_open_run | apply open_run_length, scan_open_run].
Qed.

(** X11. The scan can be cut at any byte that is not printable: the
    strings of a buffer are the strings of the part up to and including that
    byte, followed by the strings of the part after it with their offsets
    moved by the length of the first part. *)
Theorem X11_strings_chunks (data1 data2 : bytes) (t : byte)
        (Ht : StringScan.printable t = false) :
  StringScan.strings (data1 ++ t :: data2)
  = StringScan.strings (data1 ++ [t])
    ++ map (shift_entry (S (length data1))) (StringScan.strings data2).
Proof. now apply strings_chunks. Qed.

(** ["abc"], a null byte, ["wxyz"], a null byte. *)
Lemma X11_strings_chunks_witness :
  StringScan.strings (["a"; "b"; "c"] ++ x00 :: ["w"; "x"; "y"; "z"; x00])%byte
  = StringScan.strings (["a"; "b"; "c"] ++ [x00])%byte
    ++ map (shift_entry (S (length ["a"; "b"; "c"]%byte)))
           (StringScan.strings ["w"; "x"; "y"; "z"; x00]%byte).
Proof.
  apply (@X11_strings_chunks ["a"; "b"; "c"]%byte ["w"; "x"; "y"; "z"; x00]%byte x00).
  reflexivity.
Defined.

(** ** The 4-byte scan: windows, byte orders, order of the candidates *)

Section FieldScanMore.

Import FieldScan.

Lemma slice_four (data : bytes) (i : nat) :
  i + 4 <= length data ->
  exists b0 b1 b2 b3, Py.slice data i (i + 4) = [b0; b1; b2; b3].
Proof.
  intro H. unfold Py.slice.
  assert (Hlen : length (firstn (i + 4 - i) (skipn i data)) = 4)
    by (rewrite length_firstn, length_skipn; lia).
  destruct (firstn (i + 4 - i) (skipn i data))
    as [|b0 [|b1 [|b2 [|b3 [|b4 w]]]]]; try discriminate Hlen.
  now exists b0, b1, b2, b3.
Qed.

(** In a window the loop visits, [struct.unpack] has its four bytes. *)
Lemma window_unpacks (data : bytes) (i : nat) :
  In i (offsets data) ->
  exists value_le value_be,
    unpack_le (Py.slice data i (i + 4)) = Ok value_le
    /\ unpack_be (Py.slice data i (i + 4)) = Ok value_be
    /\ forall acc,
      window data acc i = consider i (consider i acc value_le) value_be.
Proof.
  intro Hi. apply in_offsets in Hi. destruct Hi as [_ Hi].
  destruct (@slice_four data i ltac:(lia)) as [b0 [b1 [b2 [b3 Hw]]]].
  unfold window. rewrite Hw. simpl. now eexists _, _.
Qed.

Lemma byte_below_256 (b : byte) : (Byte.to_N b < 256)%N.
Proof. destruct b; reflexivity. Qed.

Lemma unpack_le_be (w : bytes) (v : N) :
  unpack_le w = Ok v ->
  length w = 4 /\ (v < 4294967296)%N /\ unpack_be (rev w) = Ok v.
Proof.
  destruct w as [|b0 [|b1 [|b2 [|b3 [|b4 w]]]]]; try discriminate.
  unfold unpack_le. intro H.
  assert (Hv : v = (Byte.to_N b0 + 256 * Byte.to_N b1 + 65536 * Byte.to_N b2
                    + 16777216 * Byte.to_N b3)%N) by congruence.
  clear H.
  pose proof (byte_below_256 b0). pose proof (byte_below_256 b1).
  pose proof (byte_below_256 b2). pose proof (byte_below_256 b3).
  split; [reflexivity|]. split; [lia|].
  change (rev [b0; b1; b2; b3]) with [b3; b2; b1; b0].
  unfold unpack_be. f_equal. lia.
Qed.

Lemma window_adds_at (data : bytes) (i : nat) :
  length (window_adds data i) <= 2
  /\ Forall (fun c => fst (fst c) = i) (window_adds data i).
Proof.
  unfold window_adds.
  destruct (unpack_le (Py.slice data i (i + 4))) as [le| |];
    try (split; [simpl; lia | constructor]).
  destruct (unpack_be (Py.slice data i (i + 4))) as [be| |];
    try (split; [simpl; lia | constructor]).
  unfold kept. destruct (plausible le); destruct (plausible be); simpl;
    (split; [lia | repeat constructor]).
Qed.

Lemma flat_map_length_bound {A B} (f : A -> list B) (l : list A) (n : nat) :
  (forall a, length (f a) <= n) -> length (flat_map f l) <= n * length l.
Proof.
  intro H. induction l as [|a l IH]; simpl; [lia|].
  rewrite length_app. specialize (H a). lia.
Qed.

Lemma multiples_sorted (s n : nat) :
  StronglySorted lt (map (fun k => k * 4) (seq s n)).
Proof.
  revert s. induction n as [|n IH]; intro s; simpl.
  - constructor.
  - constructor; [apply IH|].
    apply Forall_forall. intros x Hx. apply in_map_iff in Hx.
    destruct Hx as [k [<- Hk]]. apply in_seq in Hk. lia.
Qed.

Lemma range_step_sorted (stop : nat) :
  StronglySorted lt (Py.range_step stop 4).
Proof. apply multiples_sorted. Qed.

Lemma flat_map_sorted {A} (key : A -> nat) (f : nat -> list A) (l : list nat) :
  (forall i, Forall (fun c => key c = i) (f i)) ->
  StronglySorted lt l ->
  StronglySorted le (map key (flat_map f l)).
Proof.
  intro Hf. induction 1 as [|i l Hl IH Hi]; simpl; [constructor|].
  rewrite map_app.
  assert (Hrest : Forall (fun x => i <= x) (map key (flat_map f l))).
  { apply Forall_forall. intros x Hx. apply in_map_iff in Hx.
    destruct Hx as [c [<- Hc]]. apply in_flat_map in Hc.
    destruct Hc as [j [Hj Hc]].
    rewrite Forall_forall in Hi. specialize (Hi j Hj).
    specialize (Hf j). rewrite Forall_forall in Hf. rewrite (Hf c Hc). lia. }
  specialize (Hf i).
  induction (f i) as [|c cs IHc]; simpl; [exact IH|].
  apply Forall_cons_iff in Hf. destruct Hf as [Hc Hcs].
  constructor; [now apply IHc|].
  apply Forall_app. split.
  - apply Forall_forall. intros x Hx. apply in_map_iff in Hx.
    destruct Hx as [c' [<- Hc']].
    rewrite Forall_forall in Hcs. rewrite Hc, (Hcs c' Hc'). lia.
  - rewrite Hc. exact Hrest.
Qed.

(** With strictly increasing offsets, the entries of one offset come from
    one window. *)
Lemma flat_map_count_at {A} (key : A -> nat) (f : nat -> list A) (l : list nat)
      (n i : nat) :
  (forall j, length (f j) <= n) ->
  (forall j, Forall (fun c => key c = j) (f j)) ->
  StronglySorted lt l ->
  length (filter (fun c => key c =? i) (flat_map f l)) <= n.
Proof.
  intros Hlen Hkey. induction 1 as [|j l Hl IH Hj]; simpl; [lia|].
  rewrite filter_app, length_app.
  destruct (Nat.eq_dec j i) as [->|Hne].
  - assert (Hrest : filter (fun c => key c =? i) (flat_map f l) = []).
    { apply filter_none. intros c Hc. apply in_flat_map in Hc.
      destruct Hc as [j' [Hj' Hc]].
      rewrite Forall_forall in Hj. specialize (Hj j' Hj').
      specialize (Hkey j'). rewrite Forall_forall in Hkey.
      rewrite (Hkey c Hc). apply Nat.eqb_neq. lia. }
    rewrite Hrest. simpl.
    pose proof (filter_length_le (fun c => key c =? i) (f i)).
    specialize (Hlen i). lia.
  - assert (Hhere : filter (fun c => key c =? i) (f j) = []).
    { apply filter_none. intros c Hc.
      specialize (Hkey j). rewrite Forall_forall in Hkey.
      rewrite (Hkey c Hc). now apply Nat.eqb_neq. }
    rewrite Hhere. simpl. exact IH.
Qed.

End FieldScanMore.

Section UpperBoundFacts.

Import FieldScan.

(** The check itself, by evaluation. *)
Lemma all_below : Boundary.all_in_block 24 UpperBound.below 0%uint63 = true.
Proof. vm_cast_no_check (eq_refl true). Qed.

Lemma seconds_below_300 (v : N) :
  (v < 10000000)%N ->
  PrimFloat.ltb (seconds_of v) (float_of_N 300) = true.
Proof.
  intro Hv. pose proof (to_Z_of_N Hv) as Hx.
  assert (Hb : UpperBound.below (of_Z (Z.of_N v)) = true).
  { apply (@all_in_block_spec 24 UpperBound.below ltac:(lia) 0%uint63).
    - rewrite wB_value. change (to_Z 0) with 0%Z. lia.
    - exact all_below.
    - rewrite Hx. change (to_Z 0) with 0%Z.
      change (2 ^ Z.of_nat 24)%Z with 16777216%Z. lia. }
  unfold UpperBound.below in Hb.
  assert (Hlt : (of_Z (Z.of_N v) <? 10000000)%uint63 = true).
  { apply ltb_spec. rewrite Hx. change (to_Z 10000000) with 10000000%Z. lia. }
  rewrite Hlt in Hb. exact Hb.
Qed.

Lemma palindrome_value (b : byte) :
  unpack_le [x00; b; b; x00] = Ok (65792 * Byte.to_N b)%N
  /\ unpack_be [x00; b; b; x00] = Ok (65792 * Byte.to_N b)%N.
Proof.
  unfold unpack_le, unpack_be. change (Byte.to_N x00) with 0%N.
  split; f_equal; lia.
Qed.

Lemma palindrome_plausible (b : byte) :
  (6 < Byte.to_N b < 152)%N -> plausible (65792 * Byte.to_N b) = true.
Proof.
  intro Hb. unfold plausible.
  rewrite (@boundary_exact (65792 * Byte.to_N b)) by lia.
  rewrite !andb_true_iff, !N.ltb_lt. lia.
Qed.

End UpperBoundFacts.

(** X12. [struct.error] cannot happen: at every offset the loop visits the
    slice holds four bytes, both [unpack] calls succeed, and the window
    considers the little-endian value and then the big-endian value. *)
Theorem X12_struct_error_unreachable (data : bytes) (i : nat)
        (Hi : In i (FieldScan.offsets data)) :
  exists value_le value_be,
    FieldScan.unpack_le (Py.slice data i (i + 4)) = Ok value_le
    /\ FieldScan.unpack_be (Py.slice data i (i + 4)) = Ok value_be
    /\ forall potential_markers,
      FieldScan.window data potential_markers i
      = FieldScan.consider i (FieldScan.consider i potential_markers value_le) value_be.
Proof. now apply window_unpacks. Qed.

(** The window at offset 0 of a 5-byte buffer. *)
Lemma X12_struct_error_unreachable_witness :
  exists value_le value_be,
    FieldScan.unpack_le (Py.slice [xa9; xba; x06; x00; x00] 0 (0 + 4)) = Ok value_le
    /\ FieldScan.unpack_be (Py.slice [xa9; xba; x06; x00; x00] 0 (0 + 4)) = Ok value_be
    /\ forall potential_markers,
      FieldScan.window [xa9; xba; x06; x00; x00] potential_markers 0
      = FieldScan.consider 0 (FieldScan.consider 0 potential_markers value_le) value_be.
Proof.
  apply (@X12_struct_error_unreachable [xa9; xba; x06; x00; x00] 0).
  left. reflexivity.
Defined.

(** X13. The two byte orders. A buffer that unpacks as a little-endian
    unsigned integer has four bytes, its value is below 2^32, and the same
    bytes in reverse order unpack to the same value as a big-endian one. *)
Theorem X13_unpack_byte_orders (w : bytes) (value : N)
        (H : FieldScan.unpack_le w = Ok value) :
  length w = 4
  /\ (value < 4294967296)%N
  /\ FieldScan.unpack_be (rev w) = Ok value.
Proof. now apply unpack_le_be. Qed.

(** The bytes of 441001. *)
Lemma X13_unpack_byte_orders_witness :
  length [xa9; xba; x06; x00] = 4
  /\ (441001 < 4294967296)%N
  /\ FieldScan.unpack_be (rev [xa9; xba; x06; x00]) = Ok 441001%N.
Proof.
  apply (@X13_unpack_byte_orders [xa9; xba; x06; x00] 441001%N). reflexivity.
Defined.

(** X14. The order of the candidates. The offsets of [potential_markers]
    never decrease along the list, every one of them is a multiple of 4 that
    leaves more than four bytes, no offset occurs in more than two
    candidates, and so there are at most twice as many candidates as offsets
    visited. *)
Theorem X14_candidates_ordered (data : bytes) :
  StronglySorted le (map (fun c => fst (fst c)) (FieldScan.potential_markers data))
  /\ Forall (fun c => (exists k, fst (fst c) = 4 * k)
                      /\ fst (fst c) + 4 < length data)
            (FieldScan.potential_markers data)
  /\ (forall i,
         length (filter (fun c => fst (fst c) =? i) (FieldScan.potential_markers data))
         <= 2)
  /\ length (FieldScan.potential_markers data) <= 2 * length (FieldScan.offsets data).
Proof.
  rewrite potential_markers_flat. split.
  - apply flat_map_sorted; [intro i; apply window_adds_at|].
    apply range_step_sorted.
  - split.
    + apply Forall_forall. intros c Hc. apply in_flat_map in Hc.
      destruct Hc as [i [Hi Hc]].
      destruct (window_adds_at data i) as [_ Hat].
      rewrite Forall_forall in Hat. rewrite (Hat c Hc).
      now apply in_offsets.
    + split.
      * intro i. apply flat_map_count_at.
        -- intro j. apply window_adds_at.
        -- intro j. apply window_adds_at.
        -- apply range_step_sorted.
      * apply flat_map_length_bound. intro i. apply window_adds_at.
Qed.

(** X15. The test [seconds < 300] never rejects: for every [value] that
    passed [value < 10000000], the binary64 quotient [value / 44100] is below
    300. *)
Theorem X15_upper_test_never_rejects (value : N)
        (H : (value < 10000000)%N) :
  (FieldScan.seconds_of value <? 300)%float = true.
Proof. exact (seconds_below_300 H). Qed.

(** The largest value that passes the first test. *)
Lemma X15_upper_test_never_rejects_witness :
  (FieldScan.seconds_of 9999999 <? 300)%float = true.
Proof. apply (@X15_upper_test_never_rejects 9999999%N). reflexivity. Defined.

(** X16. Both byte orders are kept. When the four bytes at a visited
    offset read the same in both orders, [00 b b 00] with [6 < b < 152], the
    value is plausible and [potential_markers] holds the same candidate twice
    in a row. *)
Theorem X16_both_byte_orders_kept (data : bytes) (i : nat) (b : byte)
        (Hi : In i (FieldScan.offsets data))
        (Hw : Py.slice data i (i + 4) = [x00; b; b; x00])
        (Hb : (6 < Byte.to_N b < 152)%N) :
  let c := (i, (65792 * Byte.to_N b)%N, FieldScan.seconds_of (65792 * Byte.to_N b)) in
  exists before after,
    FieldScan.potential_markers data = before ++ [c; c] ++ after.
Proof.
  intro c. apply in_split in Hi. destruct Hi as [l1 [l2 Hoff]].
  rewrite potential_markers_flat, Hoff, flat_map_app. simpl flat_map.
  exists (flat_map (window_adds data) l1), (flat_map (window_adds data) l2).
  f_equal. f_equal. unfold window_adds. rewrite Hw.
  destruct (palindrome_value b) as [-> ->].
  unfold kept. rewrite (palindrome_plausible b Hb). reflexivity.
Qed.

(** The bytes [00 07 07 00] and one byte more. *)
Lemma X16_both_byte_orders_kept_witness :
  let c := (0, (65792 * Byte.to_N x07)%N, FieldScan.seconds_of (65792 * Byte.to_N x07)) in
  exists before after,
    FieldScan.potential_markers [x00; x07; x07; x00; x00] = before ++ [c; c] ++ after.
Proof.
  apply (@X16_both_byte_orders_kept [x00; x07; x07; x00; x00] 0 x07).
  - left. reflexivity.
  - reflexivity.
  - split; reflexivity.
Defined.

(** ** [compare_files]: the first difference and its context *)

Section DiffMore.

Import Diff.

Lemma byte_eqb_false (a b : byte) : Py.byte_eqb a b = false <-> a <> b.
Proof.
  split.
  - intros H Hab. apply byte_eqb_eq in Hab. congruence.
  - intro H. destruct (Py.byte_eqb a b) eqn:E; [|reflexivity].
    apply byte_eqb_eq in E. contradiction.
Qed.

(** The index at which the loop breaks: the first one at which both
    buffers have a byte and the bytes differ. *)
Lemma first_difference_Some (l1 l2 : bytes) (k i : nat) :
  first_difference l1 l2 k = Some i
  <-> k <= i
      /\ firstn (i - k) l1 = firstn (i - k) l2
      /\ exists a b,
        nth_error l1 (i - k) = Some a /\ nth_error l2 (i - k) = Some b /\ a <> b.
Proof.
  revert l2 k. induction l1 as [|a l1 IH]; intros [|b l2] k; simpl.
  - split; [discriminate|]. intros [_ [_ [x [y [H _]]]]].
    rewrite nth_error_nil in H. discriminate.
  - split; [discriminate|]. intros [_ [_ [x [y [H _]]]]].
    rewrite nth_error_nil in H. discriminate.
  - split; [discriminate|]. intros [_ [_ [x [y [_ [H _]]]]]].
    rewrite nth_error_nil in H. discriminate.
  - destruct (Py.byte_eqb a b) eqn:E.
    + apply byte_eqb_eq in E. subst b. rewrite IH. split.
      * intros [Hk [Hpre [x [y [Hx [Hy Hxy]]]]]].
        replace (i - k) with (S (i - S k)) by lia. simpl.
        split; [lia|]. split; [now rewrite Hpre|]. now exists x, y.
      * intros [Hk [Hpre [x [y [Hx [Hy Hxy]]]]]].
        destruct (i - k) as [|n] eqn:En.
        -- simpl in Hx, Hy. congruence.
        -- replace (i - S k) with n by lia. simpl in *.
           split; [lia|]. split; [congruence|]. now exists x, y.
    + apply byte_eqb_false in E. split.
      * intros [= <-]. rewrite Nat.sub_diag. simpl.
        split; [lia|]. split; [reflexivity|]. now exists a, b.
      * intros [Hk [Hpre _]]. destruct (i - k) as [|n] eqn:En.
        -- f_equal. lia.
        -- simpl in Hpre. congruence.
Qed.

Lemma first_difference_sym (l1 l2 : bytes) (k : nat) :
  first_difference l1 l2 k = first_difference l2 l1 k.
Proof.
  revert l2 k. induction l1 as [|a l1 IH]; intros [|b l2] k; simpl;
    try reflexivity.
  destruct (Py.byte_eqb a b) eqn:E.
  - apply byte_eqb_eq in E. subst b.
    rewrite (proj2 (byte_eqb_eq a a) eq_refl). apply IH.
  - apply byte_eqb_false in E.
    now rewrite (proj2 (byte_eqb_false b a)) by congruence.
Qed.

Lemma first_difference_prefix (data extra : bytes) (k : nat) :
  first_difference data (data ++ extra) k = None.
Proof.
  revert k. induction data as [|a data IH]; intro k; simpl.
  - reflexivity.
  - now rewrite (proj2 (byte_eqb_eq a a) eq_refl).
Qed.

Lemma in_report_first_difference (data1 data2 : bytes) (i : nat) :
  In (FirstDifferenceAt i) (Comparing :: report data1 data2)
  <-> first_difference data1 data2 0 = Some i.
Proof.
  unfold report, difference_lines, extra_lines. simpl.
  destruct (first_difference data1 data2 0) as [j|];
    destruct (length data1 <? length data2); simpl; split;
    try (intros [= <-]); try discriminate; auto 10;
    intro H; repeat (destruct H as [H|H]; try discriminate H);
    try contradiction; try (injection H as <-; reflexivity).
Qed.

(** The two context slices around the first difference. *)
Lemma contexts_at_difference (data1 data2 : bytes) (i : nat) :
  first_difference data1 data2 0 = Some i ->
  let min_len := Nat.min (length data1) (length data2) in
  let c1 := Py.slice data1 (i - 20) (Nat.min min_len (i + 20)) in
  let c2 := Py.slice data2 (i - 20) (Nat.min min_len (i + 20)) in
  length c1 = length c2
  /\ length c1 = Nat.min min_len (i + 20) - (i - 20)
  /\ firstn (Nat.min i 20) c1 = firstn (Nat.min i 20) c2
  /\ exists a b,
    nth_error c1 (Nat.min i 20) = Some a
    /\ nth_error c2 (Nat.min i 20) = Some b
    /\ a <> b.
Proof.
  intro H. apply first_difference_Some in H. rewrite Nat.sub_0_r in H.
  destruct H as [_ [Hpre [a [b [Ha [Hb Hab]]]]]].
  assert (Hi1 : i < length data1) by (apply nth_error_Some; congruence).
  assert (Hi2 : i < length data2) by (apply nth_error_Some; congruence).
  cbv zeta. unfold Py.slice.
  rewrite !length_firstn, !length_skipn.
  split; [lia|]. split; [lia|]. split.
  - rewrite !firstn_firstn.
    replace (Nat.min (Nat.min i 20)
                     (Nat.min (Nat.min (length data1) (length data2)) (i + 20)
                      - (i - 20)))
      with (Nat.min i 20) by lia.
    rewrite !firstn_skipn_comm.
    replace (i - 20 + Nat.min i 20) with i by lia.
    now rewrite Hpre.
  - exists a, b.
    rewrite !nth_error_firstn, !nth_error_skipn.
    replace (i - 20 + Nat.min i 20) with i by lia.
    rewrite (proj2 (Nat.ltb_lt _ _)) by lia.
    now repeat split.
Qed.

End DiffMore.

(** X17. The first difference. For two files that were read,
    [compare_files] prints "First difference at byte i" exactly when the two
    files agree on their first [i] bytes and both have a byte at [i], the
    two being different; and the index found does not depend on which file
    is given first. *)
Theorem X17_first_difference_reported (data1 data2 : bytes) (i : nat) :
  ((exists out,
       compare_files (Loaded data1) (Loaded data2) = Ok out
       /\ In (FirstDifferenceAt i) out)
   <-> firstn i data1 = firstn i data2
       /\ exists a b,
         nth_error data1 i = Some a /\ nth_error data2 i = Some b /\ a <> b)
  /\ Diff.first_difference data1 data2 0 = Diff.first_difference data2 data1 0.
Proof.
  split; [|apply first_difference_sym].
  assert (Hout : compare_files (Loaded data1) (Loaded data2)
                 = Ok (Comparing :: Diff.report data1 data2)) by reflexivity.
  pose proof (first_difference_Some data1 data2 0 i) as Hspec.
  rewrite Nat.sub_0_r in Hspec.
  split.
  - intros [out [Ho Hin]]. rewrite Hout in Ho. injection Ho as <-.
    apply in_report_first_difference in Hin. now apply Hspec in Hin.
  - intro H. exists (Comparing :: Diff.report data1 data2).
    split; [reflexivity|]. apply in_report_first_difference.
    apply Hspec. split; [lia | exact H].
Qed.

(** X18. A file against itself with bytes appended. Comparing [data] with
    [data ++ extra] prints the two sizes and their difference, no first
    difference, and, unless [extra] is empty, the appended bytes: their
    number, the first 50 of them and the first 50 ASCII characters among
    them. Comparing them the other way round prints the sizes and the
    negative difference only. *)
Theorem X18_prefix_files (data extra : bytes) :
  compare_files (Loaded data) (Loaded (data ++ extra))
  = Ok ([Comparing;
         File1Size (length data);
         File2Size (length data + length extra);
         SizeDifference (Z.of_nat (length extra))]
        ++ match extra with
           | [] => []
           | _ => [ExtraDataInFile2 (length extra);
                   ExtraHex (firstn 50 extra);
                   ExtraAscii (firstn 50 (Diff.decode_ascii_ignore extra))]
           end)
  /\ compare_files (Loaded (data ++ extra)) (Loaded data)
     = Ok [Comparing;
           File1Size (length data + length extra);
           File2Size (length data);
           SizeDifference (- Z.of_nat (length extra))].
Proof.
  assert (Hnone : Diff.difference_lines data (data ++ extra) = []).
  { unfold Diff.difference_lines. now rewrite first_difference_prefix. }
  assert (Hnone' : Diff.difference_lines (data ++ extra) data = []).
  { unfold Diff.difference_lines.
    now rewrite first_difference_sym, first_difference_prefix. }
  assert (Hextra : Diff.extra_lines data (data ++ extra)
                   = match extra with
                     | [] => []
                     | _ => [ExtraDataInFile2 (length extra);
                             ExtraHex (firstn 50 extra);
                             ExtraAscii (firstn 50 (Diff.decode_ascii_ignore extra))]
                     end).
  { unfold Diff.extra_lines. rewrite length_app.
    rewrite skipn_app, skipn_all, Nat.sub_diag. cbn [skipn app].
    destruct extra as [|x extra].
    - cbn [length]. now rewrite Nat.add_0_r, Nat.ltb_irrefl.
    - rewrite (proj2 (Nat.ltb_lt _ _)) by (cbn [length]; lia). reflexivity. }
  assert (Hextra' : Diff.extra_lines (data ++ extra) data = []).
  { unfold Diff.extra_lines. rewrite length_app.
    now rewrite (proj2 (Nat.ltb_ge _ _)) by lia. }
  split.
  - change (compare_files (Loaded data) (Loaded (data ++ extra)))
      with (Ok (Comparing :: Diff.report data (data ++ extra))).
    unfold Diff.report. rewrite Hnone, Hextra, length_app.
    replace (Z.of_nat (length data + length extra) - Z.of_nat (length data))%Z
      with (Z.of_nat (length extra)) by lia.
    reflexivity.
  - change (compare_files (Loaded (data ++ extra)) (Loaded data))
      with (Ok (Comparing :: Diff.report (data ++ extra) data)).
    unfold Diff.report. rewrite Hnone', Hextra', length_app.
    replace (Z.of_nat (length data) - Z.of_nat (length data + length extra))%Z
      with (- Z.of_nat (length extra))%Z by lia.
    reflexivity.
Qed.

(** X19. The context of the first difference. When the loop breaks at
    [i], the three lines printed are the index and the slices of the two
    files from [max(0, i - 20)] to [min(min_len, i + 20)]; the two slices
    have the same length, at most 40, they agree on their first
    [min(i, 20)] bytes and differ at the next one. *)
Theorem X19_difference_context (data1 data2 : bytes) (i : nat)
        (H : Diff.first_difference data1 data2 0 = Some i) :
  let min_len := Nat.min (length data1) (length data2) in
  let c1 := Py.slice data1 (i - 20) (Nat.min min_len (i + 20)) in
  let c2 := Py.slice data2 (i - 20) (Nat.min min_len (i + 20)) in
  Diff.difference_lines data1 data2
  = [FirstDifferenceAt i; File1Context c1; File2Context c2]
  /\ length c1 = length c2
  /\ length c1 <= 40
  /\ firstn (Nat.min i 20) c1 = firstn (Nat.min i 20) c2
  /\ exists a b,
    nth_error c1 (Nat.min i 20) = Some a
    /\ nth_error c2 (Nat.min i 20) = Some b
    /\ a <> b.
Proof.
  destruct (contexts_at_difference data1 data2 H) as [Hlen [Hval [Hpre Hdiff]]].
  cbv zeta in *. split.
  - unfold Diff.difference_lines. now rewrite H.
  - split; [exact Hlen|]. split; [rewrite Hval; lia|]. now split.
Qed.

(** [01 02 03 04 05] against [01 02 09 04 05 06 07]: the loop breaks at 2. *)
Lemma X19_difference_context_witness :
  Diff.difference_lines [x01; x02; x03; x04; x05] [x01; x02; x09; x04; x05; x06; x07]
  = [FirstDifferenceAt 2;
     File1Context [x01; x02; x03; x04; x05];
     File2Context [x01; x02; x09; x04; x05]].
Proof.
  apply (@X19_difference_context [x01; x02; x03; x04; x05]
           [x01; x02; x09; x04; x05; x06; x07] 2).
  reflexivity.
Defined.

(** ** [analyze_file_structure]: what is listed *)

Section StructureFacts.

Import Structure.

Lemma filter_mapped {A B} (p : B -> bool) (f : A -> B) (l : list A) (v : bool) :
  (forall a, p (f a) = v) ->
  filter p (map f l) = if v then map f l else [].
Proof.
  intro H. induction l as [|a l IH]; simpl; [now destruct v|].
  rewrite H, IH. now destruct v.
Qed.

Lemma string_lines_listed (strings : list (nat * str)) :
  filter is_string_line (string_lines strings)
  = map (fun ps => StringLine (fst ps) (snd ps)) (firstn 20 strings)
  /\ filter is_sample_line (string_lines strings) = []
  /\ forall n,
      In (MoreStrings n) (string_lines strings)
      <-> 20 < length strings /\ n = length strings - 20.
Proof.
  unfold string_lines, Py.slice. rewrite Nat.sub_0_r. cbn [skipn].
  rewrite !filter_app.
  rewrite (@filter_mapped _ _ is_string_line _ _ true) by reflexivity.
  rewrite (@filter_mapped _ _ is_sample_line _ _ false) by reflexivity.
  split; [|split].
  - destruct (20 <? length strings); simpl; now rewrite app_nil_r.
  - now destruct (20 <? length strings).
  - intro n. rewrite in_app_iff, in_map_iff. split.
    + intros [[ps [H _]]|H]; [discriminate|].
      destruct (20 <? length strings) eqn:E; [|destruct H].
      apply Nat.ltb_lt in E. destruct H as [[= <-]|[]]. now split.
    + intros [H ->]. right. rewrite (proj2 (Nat.ltb_lt _ _) H). now left.
Qed.

Lemma marker_lines_listed (potential_markers : list candidate) :
  filter is_sample_line (marker_lines potential_markers)
  = map (fun c => SamplePosition (fst (fst c)) (snd (fst c)) (snd c))
        (firstn 10 potential_markers)
  /\ filter is_string_line (marker_lines potential_markers) = []
  /\ forall n, ~ In (MoreStrings n) (marker_lines potential_markers).
Proof.
  unfold marker_lines, Py.slice. rewrite Nat.sub_0_r. cbn [skipn].
  destruct potential_markers as [|c pm]; [now repeat split|].
  cbn [filter is_sample_line is_string_line].
  rewrite (@filter_mapped _ _ is_sample_line _ _ true) by reflexivity.
  rewrite (@filter_mapped _ _ is_string_line _ _ false) by reflexivity.
  split; [reflexivity|]. split; [reflexivity|].
  intros n [H|H]; [discriminate|].
  apply in_map_iff in H. destruct H as [x [H _]]. discriminate.
Qed.

End StructureFacts.

(** X20. What [analyze_file_structure] lists. A file that cannot be read
    gives the diagnostic and nothing else. For a file that was read the
    report gives the size and the number of strings found, lists the first
    20 strings and the first 10 sample positions in the order found, and
    prints "... and n more" exactly when more than 20 strings were found,
    with [n] the number of strings left out. *)
Theorem X20_structure_report :
  (forall msg,
      analyze_file_structure (IOFailure msg)
      = Ok [AnalyzingStructure; ErrorAnalyzingFile (OSError msg)])
  /\ forall data,
      exists out,
        analyze_file_structure (Loaded data) = Ok out
        /\ In (FileSize (length data)) out
        /\ In (FoundStrings (length (StringScan.strings data))) out
        /\ filter is_string_line out
           = map (fun ps => StringLine (fst ps) (snd ps))
                 (firstn 20 (StringScan.strings data))
        /\ filter is_sample_line out
           = map (fun c => SamplePosition (fst (fst c)) (snd (fst c)) (snd c))
                 (firstn 10 (FieldScan.potential_markers data))
        /\ forall n,
            In (MoreStrings n) out
            <-> 20 < length (StringScan.strings data)
                /\ n = length (StringScan.strings data) - 20.
Proof.
  split; [reflexivity|]. intro data.
  exists (AnalyzingStructure :: Structure.body data).
  split; [reflexivity|].
  destruct (string_lines_listed (StringScan.strings data)) as [Hs1 [Hs2 Hs3]].
  destruct (marker_lines_listed (FieldScan.potential_markers data))
    as [Hm1 [Hm2 Hm3]].
  unfold Structure.body.
  split; [right; left; reflexivity|].
  split; [do 6 right; left; reflexivity|].
  cbn [app filter is_string_line is_sample_line].
  rewrite !filter_app.
  cbn [app filter is_string_line is_sample_line].
  rewrite Hs1, Hs2, Hm1, Hm2.
  split; [now rewrite app_nil_r|]. split; [reflexivity|].
  intro n. rewrite <- Hs3. split.
  - intro H. repeat (destruct H as [H|H]; [discriminate|]).
    apply in_app_or in H. destruct H as [H|H]; [exact H|].
    repeat (destruct H as [H|H]; [discriminate|]).
    now apply Hm3 in H.
  - intro H. do 7 right. apply in_or_app. now left.
Qed.

(** ** The readable context of [analyze_ptx_file] *)

Section Lenient.

Import Utf8.

Lemma bind_Ok_inv {A B} (m : result A) (k : A -> result B) (b : B) :
  (x <- m ;; k x) = Ok b -> exists a, m = Ok a /\ k a = Ok b.
Proof. destruct m as [a| |]; simpl; try discriminate. intro H. now exists a. Qed.

(** Where the strict decoder succeeds, ignoring errors changes nothing. *)
Lemma lenient_agrees (n : nat) :
  forall l q s,
    length l <= n ->
    decode_from q l = Ok s -> Utf8Ignore.decode l = s.
Proof.
  induction n as [|n IH]; intros l q s Hlen.
  - destruct l; [|simpl in Hlen; lia]. simpl. congruence.
  - destruct l as [|b0 l1]; [simpl; congruence|].
    simpl in Hlen.
    cbn [decode_from Utf8Ignore.decode]. cbv zeta.
    destruct (Byte.to_N b0 <? 128)%N.
    { intro H. apply bind_Ok_inv in H. destruct H as [r [Hr [= <-]]].
      f_equal. apply (IH l1 (q + 1)); [lia | exact Hr]. }
    destruct (between 194 223 (Byte.to_N b0)).
    { destruct l1 as [|b1 l2]; [discriminate|].
      destruct (cont b1); [|discriminate].
      intro H. apply bind_Ok_inv in H. destruct H as [r [Hr [= <-]]].
      f_equal. apply (IH l2 (q + 2)); [simpl in Hlen; lia | exact Hr]. }
    destruct (between 224 239 (Byte.to_N b0)).
    { destruct l1 as [|b1 [|b2 l3]]; try discriminate.
      destruct (second_ok (Byte.to_N b0) (Byte.to_N b1)); [|discriminate].
      destruct (cont b2); [|discriminate]. cbn [andb].
      intro H. apply bind_Ok_inv in H. destruct H as [r [Hr [= <-]]].
      f_equal. apply (IH l3 (q + 3)); [simpl in Hlen; lia | exact Hr]. }
    destruct (between 240 244 (Byte.to_N b0)); [|discriminate].
    destruct l1 as [|b1 [|b2 [|b3 l4]]]; try discriminate.
    destruct (second_ok (Byte.to_N b0) (Byte.to_N b1)); [|discriminate].
    destruct (cont b2); [|discriminate].
    destruct (cont b3); [|discriminate]. cbn [andb].
    intro H. apply bind_Ok_inv in H. destruct H as [r [Hr [= <-]]].
    f_equal. apply (IH l4 (q + 4)); [simpl in Hlen; lia | exact Hr].
Qed.

End Lenient.

(** X21. The readable context. When the context of an entry is well-formed
    UTF-8 and the three lines before the text line are written, the body of
    the loop prints, if stdout can write it, a text line that holds exactly
    the strict decoding of the context: ignoring errors drops nothing. If
    the [print] of the text line raises, the bare [except] prints "Context
    not readable as UTF-8" in its place, and only a failure of that [print]
    leaves the loop body. *)
Theorem X21_readable_context (s : stdout ptx_line) (r : occurrence) (text : str)
        (H : Utf8.decode (context r) = Ok text)
        (Hmarker : s (MarkerLine (term r) (encoding r)) = None)
        (Hposition : s (PositionLine (position r)) = None)
        (Hhex : s (ContextHex (context r)) = None) :
  PtxReport.result_lines s r
  = match s (ContextText text) with
    | None =>
        ([MarkerLine (term r) (encoding r);
          PositionLine (position r);
          ContextHex (context r);
          ContextText text], Ok tt)
    | Some _ =>
        match s ContextNotReadable with
        | None =>
            ([MarkerLine (term r) (encoding r);
              PositionLine (position r);
              ContextHex (context r);
              ContextNotReadable], Ok tt)
        | Some e =>
            ([MarkerLine (term r) (encoding r);
              PositionLine (position r);
              ContextHex (context r)], Raise e)
        end
    end.
Proof.
  unfold PtxReport.result_lines.
  rewrite (@lenient_agrees (length (context r)) (context r) 0 text (le_n _) H).
  unfold IO.bind, IO.try_except, IO.print.
  rewrite Hmarker, Hposition, Hhex. cbn [fst snd app].
  destruct (s (ContextText text)) as [e|]; cbn [fst snd app]; [|reflexivity].
  now destruct (s ContextNotReadable).
Qed.

(** The entry of the search of [b"Intro\xc3\xa9"] for ["Intro"], on a stdout
    that writes ASCII text only: the context is well-formed UTF-8, the text
    line cannot be written, and the fallback line is printed. *)
Lemma X21_readable_context_witness :
  let ascii_only : stdout ptx_line :=
    fun l =>
      match l with
      | ContextText text =>
          if forallb (fun c => (c <? 128)%N) text then None
          else Some (UnicodeEncodeError "ascii" 0)
      | _ => None
      end in
  let r := mkOccurrence (str_of "Intro") UTF8 0
                        ["I"; "n"; "t"; "r"; "o"; xc3; xa9]%byte in
  PtxReport.result_lines ascii_only r
  = ([MarkerLine (str_of "Intro") UTF8;
      PositionLine 0;
      ContextHex ["I"; "n"; "t"; "r"; "o"; xc3; xa9]%byte;
      ContextNotReadable], Ok tt).
Proof.
  intros ascii_only r.
  apply (@X21_readable_context ascii_only r [73; 110; 116; 114; 111; 233]%N);
    reflexivity.
Defined.

(** ** Exceptions that leave a function *)

Section PrintFacts.







(** The two models of [analyze_file_structure] agree on a stdout that
    writes every line. *)
Lemma analyze_file_structure_on_reliable (file : read_result)
      (out : list structure_line) :
  analyze_file_structure file = Ok out ->
  analyze_file_structure_on reliable file = (out, Ok tt).
Proof.
  unfold analyze_file_structure, analyze_file_structure_on.
  destruct file as [data|msg]; cbn [read_file bind catch]; intros [= <-];
    [|reflexivity].
  pose proof (@print_all_reliable structure_line (Structure.body data)) as Hbody.
  unfold IO.bind, IO.try_except, IO.lift. cbn [fst snd IO.print].
  rewrite Hbody. reflexivity.
Qed.

End PrintFacts.


